(** * Kachiguda front-of-house waitlist: a model of [app.py]

    The Flask application keeps two SQLite tables, [settings] and [waitlist],
    and a signed session cookie.  Every view function is embedded as a pure
    function over an explicit request context (the store, the per-request
    handle cache [g._db] and the session).  Text is a [string]; a character
    stands for a code point in the range U+0000..U+00FF.

    What the host platform supplies (Python's character classes and [int],
    SQLite's [datetime], werkzeug's password check, the time-zone conversion)
    is gathered in the class [Runtime]; everything proved here holds for any
    runtime.  [latin1_runtime] is an instance used to run the model.

    The media endpoints (slideshow files, uploads) and the health endpoint
    touch neither the waitlist rows nor the admin flag and are left out. *)

From Stdlib Require Import ZArith Lia.
From Stdlib Require Import Ascii String.
From stdpp Require Import gmap strings list sorting.

Local Open Scope Z_scope.

(** ** Text helpers *)

(** Python's [x or s] with [s] the empty string, for an optional form
    field. *)
Definition or_empty (x : option string) : string :=
  match x with
  | Some s => s
  | None => EmptyString
  end.

(** Truthiness of a [str]: [not s] is [True] exactly for the empty string. *)
Definition falsy (s : string) : bool :=
  match s with
  | EmptyString => true
  | String _ _ => false
  end.

(** [keep_chars p s] joins the characters [ch] of [s] with [p(ch)], in
    order: the generator expression of [normalize_phone]. *)
Fixpoint keep_chars (p : ascii -> bool) (s : string) : string :=
  match s with
  | EmptyString => EmptyString
  | String ch rest =>
      if p ch then String ch (keep_chars p rest) else keep_chars p rest
  end.

Fixpoint all_chars (p : ascii -> bool) (s : string) : bool :=
  match s with
  | EmptyString => true
  | String ch rest => p ch && all_chars p rest
  end.

(** [subseq s t]: [s] is obtained from [t] by deleting characters. *)
Inductive subseq : string -> string -> Prop :=
| subseq_nil : subseq EmptyString EmptyString
| subseq_keep ch s t : subseq s t -> subseq (String ch s) (String ch t)
| subseq_drop ch s t : subseq s t -> subseq s (String ch t).

Fixpoint lstrip_with (sp : ascii -> bool) (s : string) : string :=
  match s with
  | EmptyString => EmptyString
  | String ch rest => if sp ch then lstrip_with sp rest else s
  end.

Fixpoint rstrip_with (sp : ascii -> bool) (s : string) : string :=
  match s with
  | EmptyString => EmptyString
  | String ch rest =>
      let rest' := rstrip_with sp rest in
      if sp ch && falsy rest' then EmptyString else String ch rest'
  end.

(** ** The host platform *)

Class Runtime := {
  (** [str.isdigit] on one character. *)
  isdigit : ascii -> bool;
  (** [str.isspace] on one character; [str.strip()] removes these. *)
  isspace : ascii -> bool;
  (** [int(s)] on a string; [None] when it raises [ValueError]. *)
  int : string -> option Z;
  (** SQLite's [datetime(text)]; [None] is SQL NULL (unparsable text). *)
  datetime : string -> option string;
  (** werkzeug's [check_password_hash(pwhash, password)]; [None] when it
      raises (a stored hash that names no known method). *)
  check_password_hash : string -> string -> option bool;
  (** [strptime(ts, "%Y-%m-%d %H:%M:%S")] followed by the conversion to
      Eastern time and [strftime]; [None] when [strptime] raises. *)
  strptime_eastern : string -> option string
}.

(** ** Data model *)

(** The values the application writes into the [status] column. *)
Inductive Status := WAITING | ASSIGNING | SEATED.

Global Instance Status_eq_dec : EqDecision Status.
Proof. solve_decision. Defined.

(** One row of the [waitlist] table.  [None] is SQL NULL. *)
Module Entry.
Record t := mk {
  id : Z;
  name : string;
  phone : string;
  seats : Z;
  notes : option string;
  status : Status;
  requesttime : string;
  requested_at : option string;
  assigned_at : option string;
  seated_at : option string;
  deleted_at : option string
}.
End Entry.

(** The database file: [settings(key PRIMARY KEY, value)] and the rows of
    [waitlist] in rowid order.  A missing file is [empty_db]; a file that
    exists is taken to hold the [waitlist] table. *)
Record DB := {
  settings : gmap string (option string);
  waitlist : list Entry.t
}.

Definition empty_db : DB := {| settings := ∅; waitlist := [] |}.

(** The session cookie: the value under ["is_admin"] (absent is [None]) and
    the pending flash messages [(category, message)], newest last. *)
Record Session := {
  is_admin_value : option bool;
  flashes : list (string * string)
}.

Definition anonymous : Session := {| is_admin_value := None; flashes := [] |}.

(** What a request reads from its surroundings. *)
Record Env := {
  (** the clock, as [utc_now_str()] formats it *)
  utc_now_str : string;
  (** [generate_password_hash(os.getenv("ADMIN_PIN", "123456").strip())],
      salted afresh on every call *)
  seed_pin_hash : string
}.

(** The request context: the store, whether [g._db] holds a handle, and the
    session. *)
Record Ctx := {
  store : DB;
  g_db : bool;
  session : Session
}.

Definition with_store (db : DB) (c : Ctx) : Ctx :=
  {| store := db; g_db := g_db c; session := session c |}.

Definition with_session (s : Session) (c : Ctx) : Ctx :=
  {| store := store c; g_db := g_db c; session := s |}.

Definition with_settings (m : gmap string (option string)) (db : DB) : DB :=
  {| settings := m; waitlist := waitlist db |}.

Definition with_waitlist (w : list Entry.t) (db : DB) : DB :=
  {| settings := settings db; waitlist := w |}.

(** Functional updates of one column, as the [SET] clauses need them. *)
Definition set_status (s : Status) (r : Entry.t) : Entry.t :=
  Entry.mk (Entry.id r) (Entry.name r) (Entry.phone r) (Entry.seats r)
    (Entry.notes r) s (Entry.requesttime r) (Entry.requested_at r)
    (Entry.assigned_at r) (Entry.seated_at r) (Entry.deleted_at r).

Definition set_assigned_at (v : option string) (r : Entry.t) : Entry.t :=
  Entry.mk (Entry.id r) (Entry.name r) (Entry.phone r) (Entry.seats r)
    (Entry.notes r) (Entry.status r) (Entry.requesttime r)
    (Entry.requested_at r) v (Entry.seated_at r) (Entry.deleted_at r).

Definition set_seated_at (v : option string) (r : Entry.t) : Entry.t :=
  Entry.mk (Entry.id r) (Entry.name r) (Entry.phone r) (Entry.seats r)
    (Entry.notes r) (Entry.status r) (Entry.requesttime r)
    (Entry.requested_at r) (Entry.assigned_at r) v (Entry.deleted_at r).

Definition set_deleted_at (v : option string) (r : Entry.t) : Entry.t :=
  Entry.mk (Entry.id r) (Entry.name r) (Entry.phone r) (Entry.seats r)
    (Entry.notes r) (Entry.status r) (Entry.requesttime r)
    (Entry.requested_at r) (Entry.assigned_at r) (Entry.seated_at r) v.

(** ** SQL fragments *)

(** [x IS NULL]. *)
Definition is_null {A} (x : option A) : bool :=
  match x with
  | None => true
  | Some _ => false
  end.

Definition is_some {A} (x : option A) : bool := negb (is_null x).

(** [COALESCE(x, y)] with a non-NULL second argument. *)
Definition coalesce {A} (x : option A) (y : A) : option A :=
  match x with
  | Some v => Some v
  | None => Some y
  end.

(** A Python [int] can be bound to a statement when it fits SQLite's
    64-bit INTEGER; otherwise [execute] raises [OverflowError]. *)
Definition sqlite_integer (n : Z) : bool :=
  (- 2 ^ 63 <=? n) && (n <=? 2 ^ 63 - 1).

(** [UPDATE waitlist SET ... WHERE ...]: every matching row is rewritten. *)
Definition sql_update (where_ : Entry.t -> bool) (set_ : Entry.t -> Entry.t)
    (w : list Entry.t) : list Entry.t :=
  map (fun r => if where_ r then set_ r else r) w.

(** The rowid given to the next inserted row: one more than the largest
    rowid in the table.  Rows are never removed, so the AUTOINCREMENT
    counter and the largest rowid agree.  A table that has used up the
    64-bit rowids is, like a full disk, not considered. *)
Definition next_rowid (w : list Entry.t) : Z :=
  1 + foldr Z.max 0 (map Entry.id w).

(** [WHERE id=? AND deleted_at IS NULL]. *)
Definition live_with_id (item_id : Z) (r : Entry.t) : bool :=
  (Entry.id r =? item_id) && is_null (Entry.deleted_at r).

(** [WHERE status IN ('WAITING','ASSIGNING') AND deleted_at IS NULL]. *)
Definition is_active (r : Entry.t) : bool :=
  match Entry.status r with
  | WAITING | ASSIGNING => true
  | SEATED => false
  end && is_null (Entry.deleted_at r).

(** Comparison of two sort keys: NULL sorts first, text compares code point
    by code point (the BINARY collation). *)
Definition sql_leb (a b : option string) : bool :=
  match a, b with
  | None, _ => true
  | Some _, None => false
  | Some x, Some y => String.leb x y
  end.

(** The JSON object built for one row by [api_waitlist]. *)
Record ApiItem := {
  api_id : Z;
  api_name : string;
  api_phone : string;
  api_seats : Z;
  api_status : Status;
  api_requesttime : string;
  api_assigned_at : option string;
  timer_start_utc : string;
  requesttime_et : string
}.

(** Where a redirect points. *)
Inductive Location :=
| Raw (url : string)
| UrlFor (endpoint : string)
| UrlForNext (endpoint : string) (next : Location)
| RequestPath.

Inductive Response :=
| Redirect (location : Location)
| Render (template : string) (rows : list Entry.t)
    (display_mode : string) (is_admin_flag : bool)
| Json (out : list ApiItem)
| ServerError.

(** The fields of the add-party form; [None] is a missing field. *)
Record AddForm := {
  form_name : option string;
  form_phone : option string;
  form_seats : option string;
  form_notes : option string
}.

Inductive Request :=
| GET_home
| GET_add_waitlist
| POST_add_waitlist (form : AddForm)
| GET_waitlist
| POST_assign (item_id : Z)
| POST_seated (item_id : Z)
| POST_delete (item_id : Z)
| POST_display_start
| POST_display_stop
| GET_admin_login
| POST_admin_login (pin next : option string)
| POST_admin_logout
| GET_api_waitlist.

(** ** The application *)

Section App.
Context `{Runtime}.

(** [s.strip()]. *)
Definition strip (s : string) : string :=
  rstrip_with isspace (lstrip_with isspace s).

Definition phone_char (ch : ascii) : bool :=
  isdigit ch || Ascii.eqb ch "+"%char.

Definition normalize_phone (p : option string) : string :=
  keep_chars phone_char (or_empty p).

(** *** Opening the store *)

(** [CREATE TABLE IF NOT EXISTS settings]: an absent table is the empty
    map, so nothing changes. *)
Definition _ensure_settings_table (db : DB) : DB := db.

(** [INSERT OR IGNORE INTO settings(key,value) VALUES('display_mode','open')]. *)
Definition _ensure_display_default (db : DB) : DB :=
  match settings db !! "display_mode" with
  | Some _ => db
  | None => with_settings (<["display_mode" := Some "open"]> (settings db)) db
  end.

(** [not row or not row["value"]]. *)
Definition pin_unset (row : option (option string)) : bool :=
  match row with
  | None => true
  | Some None => true
  | Some (Some v) => falsy v
  end.

Definition _ensure_admin_pin (env : Env) (db : DB) : DB :=
  if pin_unset (settings db !! "admin_pin_hash")
  then with_settings
         (<["admin_pin_hash" := Some (seed_pin_hash env)]> (settings db)) db
  else db.

(** [ALTER TABLE waitlist ADD COLUMN ...]: a row of an older file reads
    NULL in the added columns, which is how [Entry.t] already holds it. *)
Definition _ensure_lifecycle_columns (db : DB) : DB := db.

Definition get_db (env : Env) (c : Ctx) : Ctx :=
  if g_db c then c
  else
    let db := _ensure_settings_table (store c) in
    let db := _ensure_display_default db in
    let db := _ensure_admin_pin env db in
    let db := _ensure_lifecycle_columns db in
    {| store := db; g_db := true; session := session c |}.

(** *** Settings helpers *)

Definition get_setting (env : Env) (key default : string) (c : Ctx)
    : string * Ctx :=
  let c := get_db env c in
  match settings (store c) !! key with
  | Some (Some v) => (v, c)
  | _ => (default, c)
  end.

Definition set_setting (env : Env) (key value : string) (c : Ctx) : Ctx :=
  let c := get_db env c in
  with_store (with_settings (<[key := Some value]> (settings (store c)))
                (store c)) c.

(** *** Auth helpers *)

(** [bool(session.get("is_admin"))]. *)
Definition is_admin (s : Session) : bool :=
  match is_admin_value s with
  | Some b => b
  | None => false
  end.

Definition flash (message category : string) (c : Ctx) : Ctx :=
  with_session {| is_admin_value := is_admin_value (session c);
                  flashes := flashes (session c) ++ [(category, message)] |} c.

Definition admin_required (view : Ctx -> Response * Ctx) (c : Ctx)
    : Response * Ctx :=
  if is_admin (session c) then view c
  else (Redirect (UrlForNext "admin_login" RequestPath),
        flash "Admin login required." "error" c).

(** [render_template] runs the context processor [inject_globals], which
    reads the display mode (and so may open the store). *)
Definition render_template (env : Env) (template : string)
    (rows : list Entry.t) (c : Ctx) : Response * Ctx :=
  let '(mode, c) := get_setting env "display_mode" "open" c in
  (Render template rows mode (is_admin (session c)), c).

(** [utc_str_to_et]. *)
Definition utc_str_to_et (ts : string) : option string :=
  if falsy ts then Some EmptyString else strptime_eastern ts.

(** *** Queries *)

(** [ORDER BY datetime(requesttime) ASC]. *)
Definition by_requesttime (r1 r2 : Entry.t) : Prop :=
  sql_leb (datetime (Entry.requesttime r1))
          (datetime (Entry.requesttime r2)) = true.

Global Instance by_requesttime_dec r1 r2 : Decision (by_requesttime r1 r2).
Proof. unfold by_requesttime. apply _. Defined.

(** The query of [home] and of [api_waitlist].  Rows with equal keys are
    kept in rowid order; SQLite promises no order among them, and nothing
    below depends on it. *)
Definition select_active (w : list Entry.t) : list Entry.t :=
  take 100 (merge_sort by_requesttime (filter (fun r => is_active r) w)).

(** The query of [waitlist_admin]. *)
Definition select_all (w : list Entry.t) : list Entry.t :=
  merge_sort by_requesttime
    (filter (fun r => is_null (Entry.deleted_at r)) w).

(** *** Pages *)

(** [Render] records the call of [render_template] with its rows; the
    list of media files, read from the file system, is left out. *)
Definition home (env : Env) (c : Ctx) : Response * Ctx :=
  let '(mode, c) := get_setting env "display_mode" "open" c in
  let '(rows, c) :=
    if String.eqb mode "waitlist"
    then let c := get_db env c in (select_active (waitlist (store c)), c)
    else ([], c) in
  render_template env "home.html" rows c.

Definition add_waitlist_form (env : Env) (c : Ctx) : Response * Ctx :=
  render_template env "add_waitlist.html" [] c.

(** [int(seats)] under [try ... except Exception: seats = 0]. *)
Definition parse_seats (field : option string) : Z :=
  match field with
  | Some s => match int s with
              | Some n => n
              | None => 0
              end
  | None => 0
  end.

Definition new_entry (w : list Entry.t) (name phone : string) (seats : Z)
    (notes now_utc : string) : Entry.t :=
  Entry.mk (next_rowid w) name phone seats (Some notes) WAITING
    now_utc (Some now_utc) None None None.

Definition add_waitlist_submit (env : Env) (form : AddForm) (c : Ctx)
    : Response * Ctx :=
  let name := strip (or_empty (form_name form)) in
  let phone := normalize_phone (Some (or_empty (form_phone form))) in
  let notes := strip (or_empty (form_notes form)) in
  let seats := parse_seats (form_seats form) in
  if falsy name || falsy phone || (seats <=? 0)
  then (Redirect (UrlFor "add_waitlist_form"),
        flash "Enter name, valid phone, and seats (>0)." "error" c)
  else
    let now_utc := utc_now_str env in
    let c := get_db env c in
    if sqlite_integer seats
    then
      let w := waitlist (store c) in
      let c := with_store
                 (with_waitlist
                    (w ++ [new_entry w name phone seats notes now_utc])
                    (store c)) c in
      (Redirect (UrlFor "home"),
       flash "Party added to waitlist." "success" c)
    else
      (* cur.execute raises OverflowError while binding seats *)
      (ServerError, c).

(** *** Admin-only pages *)

Definition waitlist_admin (env : Env) : Ctx -> Response * Ctx :=
  admin_required (fun c =>
    let c := get_db env c in
    render_template env "waitlist_admin.html"
      (select_all (waitlist (store c))) c).

Definition update_waitlist (f : list Entry.t -> list Entry.t) (c : Ctx)
    : Ctx :=
  with_store (with_waitlist (f (waitlist (store c))) (store c)) c.

Definition waitlist_assign (env : Env) (item_id : Z)
    : Ctx -> Response * Ctx :=
  admin_required (fun c =>
    let now_utc := utc_now_str env in
    let c := get_db env c in
    if sqlite_integer item_id
    then
      let c := update_waitlist
                 (sql_update (live_with_id item_id)
                    (fun r => set_assigned_at (Some now_utc)
                                (set_status ASSIGNING r))) c in
      (Redirect (UrlFor "waitlist_admin"), c)
    else (ServerError, c)).

Definition waitlist_seated (env : Env) (item_id : Z)
    : Ctx -> Response * Ctx :=
  admin_required (fun c =>
    let now_utc := utc_now_str env in
    let c := get_db env c in
    if sqlite_integer item_id
    then
      let c := update_waitlist
                 (sql_update (live_with_id item_id)
                    (fun r => set_seated_at
                                (coalesce (Entry.seated_at r) now_utc)
                                (set_status SEATED r))) c in
      (Redirect (UrlFor "waitlist_admin"), c)
    else (ServerError, c)).

Definition waitlist_delete (env : Env) (item_id : Z)
    : Ctx -> Response * Ctx :=
  admin_required (fun c =>
    let now_utc := utc_now_str env in
    let c := get_db env c in
    if sqlite_integer item_id
    then
      let c := update_waitlist
                 (sql_update (live_with_id item_id)
                    (set_deleted_at (Some now_utc))) c in
      (Redirect (UrlFor "waitlist_admin"),
       flash "Entry removed." "success" c)
    else (ServerError, c)).

(** *** Display mode controls *)

Definition display_start (env : Env) : Ctx -> Response * Ctx :=
  admin_required (fun c =>
    let c := set_setting env "display_mode" "waitlist" c in
    (Redirect (UrlFor "waitlist_admin"),
     flash "Display started. Home now shows the waitlist." "success" c)).

Definition display_stop (env : Env) : Ctx -> Response * Ctx :=
  admin_required (fun c =>
    let c := set_setting env "display_mode" "open" c in
    (Redirect (UrlFor "waitlist_admin"),
     flash "Display stopped. Home shows 'COME ON IN'." "success" c)).

(** *** Admin auth *)

Definition admin_login (env : Env) (c : Ctx) : Response * Ctx :=
  render_template env "admin_login.html" [] c.

(** [request.form.get("next") or url_for("waitlist_admin")]. *)
Definition next_url (next : option string) : Location :=
  if falsy (or_empty next) then UrlFor "waitlist_admin"
  else Raw (or_empty next).

Definition admin_login_post (env : Env) (pin next : option string)
    (c : Ctx) : Response * Ctx :=
  let pin := strip (or_empty pin) in
  let c := get_db env c in
  match settings (store c) !! "admin_pin_hash" with
  | Some (Some pwhash) =>
      match check_password_hash pwhash pin with
      | Some true =>
          let c := with_session {| is_admin_value := Some true;
                                   flashes := flashes (session c) |} c in
          (Redirect (next_url next),
           flash "Logged in as admin." "success" c)
      | Some false =>
          (Redirect (UrlForNext "admin_login" (next_url next)),
           flash "Invalid PIN." "error" c)
      | None => (ServerError, c)
      end
  | Some None =>
      (* check_password_hash(None, pin) raises *)
      (ServerError, c)
  | None =>
      (Redirect (UrlForNext "admin_login" (next_url next)),
       flash "Invalid PIN." "error" c)
  end.

Definition admin_logout (c : Ctx) : Response * Ctx :=
  let c := with_session {| is_admin_value := None;
                           flashes := flashes (session c) |} c in
  (Redirect (UrlFor "home"), flash "Logged out." "success" c).

(** *** JSON for the live panel *)

(** [r["assigned_at"] if (r["status"] == "ASSIGNING" and r["assigned_at"])
    else r["requesttime"]]. *)
Definition start_ts (r : Entry.t) : string :=
  match Entry.status r, Entry.assigned_at r with
  | ASSIGNING, Some t => if falsy t then Entry.requesttime r else t
  | _, _ => Entry.requesttime r
  end.

Definition api_item (r : Entry.t) : option ApiItem :=
  let ts := if falsy (start_ts r) then Entry.requesttime r else start_ts r in
  match utc_str_to_et (Entry.requesttime r) with
  | Some et =>
      Some {| api_id := Entry.id r; api_name := Entry.name r;
              api_phone := Entry.phone r; api_seats := Entry.seats r;
              api_status := Entry.status r;
              api_requesttime := Entry.requesttime r;
              api_assigned_at := Entry.assigned_at r;
              timer_start_utc := ts +:+ "Z";
              requesttime_et := et |}
  | None => None
  end.

Definition api_waitlist (env : Env) (c : Ctx) : Response * Ctx :=
  let c := get_db env c in
  let rows := select_active (waitlist (store c)) in
  match mapM api_item rows with
  | Some out => (Json out, c)
  | None => (ServerError, c)
  end.

(** *** Requests *)

Definition view (env : Env) (req : Request) : Ctx -> Response * Ctx :=
  match req with
  | GET_home => home env
  | GET_add_waitlist => add_waitlist_form env
  | POST_add_waitlist form => add_waitlist_submit env form
  | GET_waitlist => waitlist_admin env
  | POST_assign item_id => waitlist_assign env item_id
  | POST_seated item_id => waitlist_seated env item_id
  | POST_delete item_id => waitlist_delete env item_id
  | POST_display_start => display_start env
  | POST_display_stop => display_stop env
  | GET_admin_login => admin_login env
  | POST_admin_login pin next => admin_login_post env pin next
  | POST_admin_logout => admin_logout
  | GET_api_waitlist => api_waitlist env
  end.

(** One request: a fresh application context ([g] is empty), the view,
    and the teardown that closes the handle. *)
Definition handle (env : Env) (req : Request) (cookie : Session) (db : DB)
    : Response * Session * DB :=
  let '(resp, c) := view env req {| store := db; g_db := false;
                                    session := cookie |} in
  (resp, session c, store c).

(** A request as the server sees it: any client, any clock reading. *)
Record Event := {
  ev_env : Env;
  ev_request : Request;
  ev_cookie : Session
}.

Definition db_after (db : DB) (ev : Event) : DB :=
  (handle (ev_env ev) (ev_request ev) (ev_cookie ev) db).2.

Definition response_to (db : DB) (ev : Event) : Response :=
  (handle (ev_env ev) (ev_request ev) (ev_cookie ev) db).1.1.

(** The store after a sequence of requests. *)
Definition run (db : DB) (trace : list Event) : DB :=
  foldl db_after db trace.

(** One client following its own cookie. *)
Fixpoint browse (steps : list (Env * Request)) (cookie : Session) (db : DB)
    : Session * DB :=
  match steps with
  | [] => (cookie, db)
  | (env, req) :: rest =>
      let '(_, cookie', db') := handle env req cookie db in
      browse rest cookie' db'
  end.

(** The ids of the entries a response carries. *)
Definition response_ids (resp : Response) : list Z :=
  match resp with
  | Render _ rows _ _ => map Entry.id rows
  | Json out => map api_id out
  | Redirect _ | ServerError => []
  end.

End App.

(** ** A runtime for Latin-1 text *)

Definition code (ch : ascii) : Z := Z.of_N (N_of_ascii ch).

Definition between (lo hi : Z) (ch : ascii) : bool :=
  (lo <=? code ch) && (code ch <=? hi).

(** [str.isdigit] below U+0100: the decimal digits and the superscripts
    U+00B2, U+00B3, U+00B9. *)
Definition latin1_isdigit (ch : ascii) : bool :=
  between 48 57 ch || between 178 179 ch || between 185 185 ch.

(** [str.isspace] below U+0100. *)
Definition latin1_isspace (ch : ascii) : bool :=
  between 9 13 ch || between 28 32 ch || between 133 133 ch
  || between 160 160 ch.

(** The digits of a decimal literal, single underscores allowed between
    digits. *)
Fixpoint decimal_digits (after_digit : bool) (acc : Z) (s : string)
    : option Z :=
  match s with
  | EmptyString => if after_digit then Some acc else None
  | String ch rest =>
      if Ascii.eqb ch "_"%char
      then if after_digit then decimal_digits false acc rest else None
      else if between 48 57 ch
           then decimal_digits true (10 * acc + (code ch - 48)) rest
           else None
  end.

(** [int(s)]: surrounding whitespace, an optional sign, decimal digits. *)
Definition latin1_int (s : string) : option Z :=
  match rstrip_with latin1_isspace (lstrip_with latin1_isspace s) with
  | String "+"%char rest => decimal_digits false 0 rest
  | String "-"%char rest => Z.opp <$> decimal_digits false 0 rest
  | t => decimal_digits false 0 t
  end.

Fixpoint digits_value (s : string) : option Z :=
  match s with
  | EmptyString => Some 0
  | String ch rest =>
      if between 48 57 ch
      then (fun v => (code ch - 48) * 10 ^ Z.of_nat (String.length rest) + v)
             <$> digits_value rest
      else None
  end.

Definition field_in (lo hi : Z) (s : string) (start : nat) : bool :=
  match digits_value (String.substring start 2 s) with
  | Some v => (lo <=? v) && (v <=? hi)
  | None => false
  end.

(** SQLite's [datetime] on text already written as [YYYY-MM-DD HH:MM:SS]
    with a day that exists in every month: the text is returned as it is.
    Other spellings that SQLite accepts are answered NULL here. *)
Definition canonical_datetime (s : string) : option string :=
  if (String.length s =? 19)%nat
     && is_some (digits_value (String.substring 0 4 s))
     && String.eqb (String.substring 4 1 s) "-"
     && field_in 1 12 s 5
     && String.eqb (String.substring 7 1 s) "-"
     && field_in 1 28 s 8
     && String.eqb (String.substring 10 1 s) " "
     && field_in 0 23 s 11
     && String.eqb (String.substring 13 1 s) ":"
     && field_in 0 59 s 14
     && String.eqb (String.substring 16 1 s) ":"
     && field_in 0 59 s 17
  then Some s else None.

(** A stand-in for the salted hash, used only to run examples. *)
Definition toy_hash (password : string) : string := "toy$" +:+ password.

Definition latin1_runtime : Runtime := {|
  isdigit := latin1_isdigit;
  isspace := latin1_isspace;
  int := latin1_int;
  datetime := canonical_datetime;
  check_password_hash := fun pwhash password =>
    Some (String.eqb pwhash (toy_hash password));
  strptime_eastern := fun ts =>
    if is_some (canonical_datetime ts) then Some (ts +:+ " ET") else None
|}.

(** ** Notions the specification speaks of *)

(** The position of a status in the lifecycle WAITING, ASSIGNING, SEATED. *)
Definition status_rank (s : Status) : Z :=
  match s with
  | WAITING => 0
  | ASSIGNING => 1
  | SEATED => 2
  end.

Fixpoint count_char (ch : ascii) (s : string) : nat :=
  match s with
  | EmptyString => O
  | String x rest =>
      ((if Ascii.eqb x ch then 1 else 0) + count_char ch rest)%nat
  end.

(** What one statement of a view does to one row. *)
Inductive row_step : Entry.t -> Entry.t -> Prop :=
| row_assign r now :
    Entry.deleted_at r = None ->
    row_step r (set_assigned_at (Some now) (set_status ASSIGNING r))
| row_seat r now :
    Entry.deleted_at r = None ->
    row_step r (set_seated_at (coalesce (Entry.seated_at r) now)
                  (set_status SEATED r))
| row_delete r now :
    Entry.deleted_at r = None ->
    row_step r (set_deleted_at (Some now) r).

(** What one request does to the table. *)
Inductive table_step : list Entry.t -> list Entry.t -> Prop :=
| table_same w : table_step w w
| table_insert w name phone seats notes now :
    table_step w (w ++ [new_entry w name phone seats notes now])
| table_assign w item_id now :
    table_step w (sql_update (live_with_id item_id)
                    (fun r => set_assigned_at (Some now)
                                (set_status ASSIGNING r)) w)
| table_seat w item_id now :
    table_step w (sql_update (live_with_id item_id)
                    (fun r => set_seated_at (coalesce (Entry.seated_at r) now)
                                (set_status SEATED r)) w)
| table_delete w item_id now :
    table_step w (sql_update (live_with_id item_id)
                    (set_deleted_at (Some now)) w).

(** The JSON object [it] shows the row [r]. *)
Definition item_of_row (r : Entry.t) (it : ApiItem) : Prop :=
  api_id it = Entry.id r /\ api_name it = Entry.name r
  /\ api_phone it = Entry.phone r /\ api_seats it = Entry.seats r
  /\ api_status it = Entry.status r
  /\ api_requesttime it = Entry.requesttime r
  /\ api_assigned_at it = Entry.assigned_at r.

(** The rows a rendered page shows. *)
Definition response_rows (resp : Response) : list Entry.t :=
  match resp with
  | Render _ rows _ _ => rows
  | _ => []
  end.

(** The id [item_id] is taken, and by soft-deleted rows only. *)
Definition retired (item_id : Z) (w : list Entry.t) : Prop :=
  (exists r, r ∈ w /\ Entry.id r = item_id)
  /\ forall r, r ∈ w -> Entry.id r = item_id -> Entry.deleted_at r <> None.

Definition assign_event (env : Env) (cookie : Session) (item_id : Z) : Event :=
  {| ev_env := env; ev_request := POST_assign item_id; ev_cookie := cookie |}.

Definition seated_event (env : Env) (cookie : Session) (item_id : Z) : Event :=
  {| ev_env := env; ev_request := POST_seated item_id; ev_cookie := cookie |}.

Definition delete_event (env : Env) (cookie : Session) (item_id : Z) : Event :=
  {| ev_env := env; ev_request := POST_delete item_id; ev_cookie := cookie |}.

Section Notions.
Context `{Runtime}.

(** Digits with an optional ["+"] in front. *)
Definition digits_after_optional_plus (s : string) : bool :=
  match s with
  | EmptyString => true
  | String ch rest => phone_char ch && all_chars isdigit rest
  end.

(** The conditions under which the add-party form is accepted. *)
Definition valid_submission (form : AddForm) : Prop :=
  strip (or_empty (form_name form)) <> EmptyString
  /\ normalize_phone (form_phone form) <> EmptyString
  /\ exists s n, form_seats form = Some s /\ int s = Some n /\ 0 < n.

(** All active rows in display order, before the limit. *)
Definition ordered_active (w : list Entry.t) : list Entry.t :=
  merge_sort by_requesttime (filter (fun r => is_active r) w).

(** The stored hash accepts the submitted PIN. *)
Definition pin_accepted (env : Env) (pin : option string) (db : DB) : bool :=
  let c := get_db env {| store := db; g_db := false; session := anonymous |} in
  match settings (store c) !! "admin_pin_hash" with
  | Some (Some pwhash) =>
      match check_password_hash pwhash (strip (or_empty pin)) with
      | Some true => true
      | _ => false
      end
  | _ => false
  end.
End Notions.

(** ** Sample data *)

Definition env_evening : Env :=
  {| utc_now_str := "2024-05-01 18:00:00";
     seed_pin_hash := toy_hash "123456" |}.

Definition env_later : Env :=
  {| utc_now_str := "2024-05-01 18:20:00";
     seed_pin_hash := toy_hash "123456" |}.

Definition env_last : Env :=
  {| utc_now_str := "2024-05-01 18:45:00";
     seed_pin_hash := toy_hash "123456" |}.

Definition admin_cookie : Session :=
  {| is_admin_value := Some true; flashes := [] |}.

Definition alice_form : AddForm :=
  {| form_name := Some "Alice"; form_phone := Some "555-1234";
     form_seats := Some "2"; form_notes := Some EmptyString |}.

(** Seats beyond the range of a 64-bit integer: 2^63. *)
Definition huge_form : AddForm :=
  {| form_name := Some "Alice"; form_phone := Some "555-1234";
     form_seats := Some "9223372036854775808";
     form_notes := Some EmptyString |}.

Definition nameless_form : AddForm :=
  {| form_name := Some EmptyString; form_phone := Some "555";
     form_seats := Some "2"; form_notes := Some EmptyString |}.

(** The context of a request sent without a cookie. *)
Definition guest_ctx (db : DB) : Ctx :=
  {| store := db; g_db := false; session := anonymous |}.

Definition by_admin (env : Env) (req : Request) : Event :=
  {| ev_env := env; ev_request := req; ev_cookie := admin_cookie |}.

Definition by_guest (env : Env) (req : Request) : Event :=
  {| ev_env := env; ev_request := req; ev_cookie := anonymous |}.

(** The store after Alice's party has been added. *)
Definition db_alice : DB :=
  @run latin1_runtime empty_db
    [by_guest env_evening (POST_add_waitlist alice_form)].

Definition alice_row : Entry.t :=
  Entry.mk 1 "Alice" "5551234" 2 (Some EmptyString) WAITING
    "2024-05-01 18:00:00" (Some "2024-05-01 18:00:00") None None None.

(** The store after an admin has seated Alice's party. *)
Definition db_alice_seated : DB :=
  @run latin1_runtime db_alice [by_admin env_later (POST_seated 1)].

Definition alice_seated_row : Entry.t :=
  Entry.mk 1 "Alice" "5551234" 2 (Some EmptyString) SEATED
    "2024-05-01 18:00:00" (Some "2024-05-01 18:00:00") None
    (Some "2024-05-01 18:20:00") None.

(** Four parties whose rowid order is not their arrival order; the third
    is seated and the fourth removed. *)
Definition shuffled_db : DB :=
  {| settings := {["display_mode" := Some "waitlist"]};
     waitlist :=
       [ Entry.mk 1 "Ravi" "5550001" 4 None WAITING
           "2024-05-01 18:30:00" (Some "2024-05-01 18:30:00") None None None;
         Entry.mk 2 "Mina" "5550002" 2 None ASSIGNING
           "2024-05-01 18:10:00" (Some "2024-05-01 18:10:00")
           (Some "2024-05-01 18:40:00") None None;
         Entry.mk 3 "Omar" "5550003" 3 None SEATED
           "2024-05-01 18:20:00" (Some "2024-05-01 18:20:00") None
           (Some "2024-05-01 18:35:00") None;
         Entry.mk 4 "Lena" "5550004" 2 None WAITING
           "2024-05-01 18:05:00" (Some "2024-05-01 18:05:00") None None
           (Some "2024-05-01 18:15:00") ] |}.

(** The [k]-th of many waiting parties that arrived in the same second. *)
Definition waiting_party (k : nat) : Entry.t :=
  Entry.mk (Z.of_nat (S k)) "Guest" "555" 2 None WAITING
    "2024-05-01 18:00:00" (Some "2024-05-01 18:00:00") None None None.

Definition crowded_db : DB :=
  {| settings := {["display_mode" := Some "waitlist"]};
     waitlist := map waiting_party (seq 0 101) |}.

(** ** Further notions: what rows keep, who may change them *)

(** [r'] is the party [r]: the columns that no statement writes after
    the insert are the same. *)
Definition same_party (r r' : Entry.t) : Prop :=
  Entry.id r' = Entry.id r /\ Entry.name r' = Entry.name r
  /\ Entry.phone r' = Entry.phone r /\ Entry.seats r' = Entry.seats r
  /\ Entry.notes r' = Entry.notes r
  /\ Entry.requesttime r' = Entry.requesttime r
  /\ Entry.requested_at r' = Entry.requested_at r.

(** The timestamps fit the status: a waiting party was neither assigned
    nor seated, an assigning one has its assignment time, a seated one its
    seating time. *)
Definition stamps_agree (r : Entry.t) : Prop :=
  match Entry.status r with
  | WAITING => Entry.assigned_at r = None /\ Entry.seated_at r = None
  | ASSIGNING => Entry.assigned_at r <> None
  | SEATED => Entry.seated_at r <> None
  end.

(** The rowids are 1, 2, 3, ... in table order. *)
Definition numbered (w : list Entry.t) : Prop :=
  map Entry.id w = (fun k => Z.of_nat (S k)) <$> seq 0 (length w).

(** The requests whose view is wrapped in [admin_required]. *)
Definition admin_only (req : Request) : bool :=
  match req with
  | GET_waitlist | POST_assign _ | POST_seated _ | POST_delete _
  | POST_display_start | POST_display_stop => true
  | _ => false
  end.

Definition guest_event (ev : Event) : Prop := is_admin (ev_cookie ev) = false.

Definition home_event (env : Env) (cookie : Session) : Event :=
  {| ev_env := env; ev_request := GET_home; ev_cookie := cookie |}.

Definition display_event (env : Env) (cookie : Session) (on : bool) : Event :=
  {| ev_env := env;
     ev_request := if on then POST_display_start else POST_display_stop;
     ev_cookie := cookie |}.

(** The timer start the panel shows for a row. *)
Definition timer_of (r : Entry.t) : string :=
  match Entry.status r, Entry.assigned_at r with
  | ASSIGNING, Some (String ch t) => String ch t
  | _, _ => Entry.requesttime r
  end.

Section StoredRows.
Context `{Runtime}.

(** What [add_waitlist_submit] guarantees of a row it stores. *)
Definition as_created (r : Entry.t) : Prop :=
  Entry.name r <> EmptyString
  /\ Entry.phone r <> EmptyString
  /\ all_chars phone_char (Entry.phone r) = true
  /\ 0 < Entry.seats r
  /\ sqlite_integer (Entry.seats r) = true
  /\ Entry.notes r <> None
  /\ Entry.requested_at r = Some (Entry.requesttime r).
End StoredRows.

(** ** Media files *)

Definition ALLOWED_EXT : list string :=
  [".png"; ".jpg"; ".jpeg"; ".gif"; ".webp";
   ".mp4"; ".webm"; ".ogg"; ".m4v"; ".mov"].

(** [ext in ALLOWED_EXT]. *)
Definition in_allowed_ext (ext : string) : bool :=
  existsb (String.eqb ext) ALLOWED_EXT.

Fixpoint has_char (x : ascii) (s : string) : bool :=
  match s with
  | EmptyString => false
  | String ch rest => Ascii.eqb ch x || has_char x rest
  end.

(** [os.path.basename] on POSIX: what follows the last ["/"]. *)
Fixpoint basename (p : string) : string :=
  match p with
  | EmptyString => EmptyString
  | String ch rest =>
      if has_char "/"%char rest then basename rest
      else if Ascii.eqb ch "/"%char then rest else p
  end.

(** [s[s.rfind(x):]] when [x] occurs in [s], the empty string otherwise. *)
Fixpoint from_last (x : ascii) (s : string) : string :=
  match s with
  | EmptyString => EmptyString
  | String ch rest =>
      if has_char x rest then from_last x rest
      else if Ascii.eqb ch x then s else EmptyString
  end.

(** [os.path.splitext(p)[1]] on POSIX: the part of the last path component
    from its last dot on, the leading dots of the component not counting
    as the start of an extension. *)
Definition splitext_ext (p : string) : string :=
  from_last "."%char (lstrip_with (Ascii.eqb "."%char) (basename p)).

(** [str.lower] on one character below U+0100. *)
Definition lower_char (ch : ascii) : ascii :=
  if between 65 90 ch || (between 192 222 ch && negb (code ch =? 215))
  then ascii_of_N (N_of_ascii ch + 32) else ch.

Fixpoint lower (s : string) : string :=
  match s with
  | EmptyString => EmptyString
  | String ch rest => String (lower_char ch) (lower rest)
  end.

(** [fn.startswith(".")]. *)
Definition hidden (fn : string) : bool :=
  match fn with
  | String ch _ => Ascii.eqb ch "."%char
  | EmptyString => false
  end.

(** The order of [sorted] on strings: code point by code point. *)
Definition string_le (s t : string) : Prop := String.leb s t = true.

Global Instance string_le_dec s t : Decision (string_le s t).
Proof. unfold string_le. apply _. Defined.

Definition shown_in_slideshow (fn : string) : bool :=
  negb (hidden fn) && in_allowed_ext (lower (splitext_ext fn)).

(** [fetch_media_files]; [media_dir] is the listing of MEDIA_DIR, [None]
    when it is not a directory. *)
Definition fetch_media_files (media_dir : option (list string)) : list string :=
  match media_dir with
  | Some listing =>
      filter (fun fn => shown_in_slideshow fn) (merge_sort string_le listing)
  | None => []
  end.

(** [_safe_media_path]: [Some name] stands for the path of [name] inside
    MEDIA_DIR, [None] for the [ValueError]. *)
Definition _safe_media_path (filename : string) : option string :=
  let name := basename filename in
  let ext := lower (splitext_ext name) in
  if in_allowed_ext ext then Some name else None.

Section Media.
Context `{Runtime}.

(** The file [media_delete] looks for: the stripped form field passed
    through [_safe_media_path]. *)
Definition media_delete_target (filename : option string) : option string :=
  _safe_media_path (strip (or_empty filename)).
End Media.

(** ** Health *)

Record StatusJson := {
  status_ok : bool;
  waitlist_count : nat;
  media_count : nat;
  status_display_mode : string;
  status_is_admin : bool
}.

Definition status_api (env : Env) (media_dir : option (list string))
    (c : Ctx) : StatusJson * Ctx :=
  let c := get_db env c in
  let count :=
    length (filter (fun r => is_null (Entry.deleted_at r))
              (waitlist (store c))) in
  let media := length (fetch_media_files media_dir) in
  let '(mode, c) := get_setting env "display_mode" "open" c in
  ({| status_ok := true; waitlist_count := count; media_count := media;
      status_display_mode := mode; status_is_admin := is_admin (session c) |},
   c).

(** What the health endpoint answers for a store and a cookie. *)
Definition status_of (env : Env) (media_dir : option (list string))
    (cookie : Session) (db : DB) : StatusJson :=
  (status_api env media_dir
     {| store := db; g_db := false; session := cookie |}).1.

(** ** More sample data *)

Definition env_hashless : Env :=
  {| utc_now_str := "2024-05-01 18:00:00"; seed_pin_hash := EmptyString |}.

Definition media_listing : list string :=
  ["menu.PNG"; ".hidden.png"; "notes.txt"; "clip.mp4"; "banner.jpeg"].

Arguments get_db : simpl never.
Arguments select_active : simpl never.
Arguments select_all : simpl never.

(** ** Text *)

Lemma falsy_true_iff (s : string) : falsy s = true <-> s = EmptyString.
Proof. destruct s; simpl; split; congruence. Qed.

Lemma falsy_false_iff (s : string) : falsy s = false <-> s <> EmptyString.
Proof. destruct s; simpl; split; congruence. Qed.

Lemma or_empty_idem (x : option string) : or_empty (Some (or_empty x)) = or_empty x.
Proof. reflexivity. Qed.

Lemma subseq_refl (s : string) : subseq s s.
Proof. induction s; constructor; assumption. Qed.

Lemma keep_chars_all (p : ascii -> bool) (s : string) :
  all_chars p (keep_chars p s) = true.
Proof.
  induction s as [|ch rest IH]; simpl; [reflexivity|].
  destruct (p ch) eqn:Hp; simpl; [rewrite Hp|]; exact IH.
Qed.

Lemma keep_chars_subseq (p : ascii -> bool) (s : string) :
  subseq (keep_chars p s) s.
Proof.
  induction s as [|ch rest IH]; simpl; [constructor|].
  destruct (p ch); constructor; exact IH.
Qed.

Lemma keep_chars_count (p : ascii -> bool) (s : string) (ch : ascii) :
  count_char ch (keep_chars p s) = if p ch then count_char ch s else O.
Proof.
  induction s as [|x rest IH]; simpl; [destruct (p ch); reflexivity|].
  destruct (p x) eqn:Hx; simpl; rewrite IH.
  - destruct (p ch) eqn:Hc; [reflexivity|].
    destruct (Ascii.eqb_spec x ch) as [->|]; [congruence|reflexivity].
  - destruct (p ch) eqn:Hc; [|reflexivity].
    destruct (Ascii.eqb_spec x ch) as [->|]; [congruence|reflexivity].
Qed.

Lemma keep_chars_fixed (p : ascii -> bool) (s : string) :
  all_chars p s = true -> keep_chars p s = s.
Proof.
  induction s as [|ch rest IH]; simpl; [reflexivity|].
  intros [Hp Hrest]%andb_prop. rewrite Hp, IH; auto.
Qed.

(** ** Ordering of sort keys *)

Lemma string_leb_trans (a b c : string) :
  String.leb a b = true -> String.leb b c = true -> String.leb a c = true.
Proof.
  unfold String.leb. revert b c.
  induction a as [|x a IH]; intros [|y b] [|z c]; simpl; try done.
  unfold Ascii.compare.
  destruct (N.compare_spec (N_of_ascii x) (N_of_ascii y)) as [Hxy|Hxy|Hxy],
           (N.compare_spec (N_of_ascii y) (N_of_ascii z)) as [Hyz|Hyz|Hyz],
           (N.compare_spec (N_of_ascii x) (N_of_ascii z)) as [Hxz|Hxz|Hxz];
    try done; try lia; eauto.
Qed.

Lemma sql_leb_total (a b : option string) :
  sql_leb a b = true \/ sql_leb b a = true.
Proof.
  destruct a as [x|], b as [y|]; simpl; auto. apply String.leb_total.
Qed.

Lemma sql_leb_trans (a b c : option string) :
  sql_leb a b = true -> sql_leb b c = true -> sql_leb a c = true.
Proof.
  destruct a as [x|], b as [y|], c as [z|]; simpl; try done.
  apply string_leb_trans.
Qed.

Section Facts.
Context `{Runtime}.

Global Instance by_requesttime_total : Total by_requesttime.
Proof. intros r1 r2. apply sql_leb_total. Qed.

Global Instance by_requesttime_trans : Transitive by_requesttime.
Proof. intros r1 r2 r3. apply sql_leb_trans. Qed.

(** *** The store handle *)

Lemma get_db_waitlist env c :
  waitlist (store (get_db env c)) = waitlist (store c).
Proof.
  unfold get_db. destruct (g_db c); [done|]. simpl.
  unfold _ensure_lifecycle_columns, _ensure_admin_pin,
    _ensure_display_default, _ensure_settings_table.
  destruct (settings (store c) !! "display_mode"); simpl;
    destruct (pin_unset _); done.
Qed.

Lemma get_db_session env c : session (get_db env c) = session c.
Proof. unfold get_db. destruct (g_db c); done. Qed.

Lemma get_db_open env c : g_db (get_db env c) = true.
Proof. unfold get_db. destruct (g_db c) eqn:E; done. Qed.

Lemma get_db_opened env c : g_db c = true -> get_db env c = c.
Proof. unfold get_db. intros ->. done. Qed.

Lemma get_db_idem env env' c : get_db env' (get_db env c) = get_db env c.
Proof. apply get_db_opened, get_db_open. Qed.

Lemma get_setting_ctx env key default c :
  (get_setting env key default c).2 = get_db env c.
Proof.
  unfold get_setting.
  destruct (settings (store (get_db env c)) !! key) as [[v|]|]; done.
Qed.

Lemma get_setting_value env key default c :
  (get_setting env key default c).1 =
    match settings (store (get_db env c)) !! key with
    | Some (Some v) => v
    | _ => default
    end.
Proof.
  unfold get_setting.
  destruct (settings (store (get_db env c)) !! key) as [[v|]|]; done.
Qed.

Lemma set_setting_waitlist env key value c :
  waitlist (store (set_setting env key value c)) = waitlist (store c).
Proof. unfold set_setting. simpl. apply get_db_waitlist. Qed.

Lemma set_setting_session env key value c :
  session (set_setting env key value c) = session c.
Proof. unfold set_setting. simpl. apply get_db_session. Qed.

Lemma set_setting_open env key value c :
  g_db (set_setting env key value c) = true.
Proof. unfold set_setting. simpl. apply get_db_open. Qed.

Lemma render_template_spec env template rows c :
  render_template env template rows c =
    (Render template rows
       (get_setting env "display_mode" "open" c).1 (is_admin (session c)),
     get_db env c).
Proof.
  unfold render_template.
  destruct (get_setting env "display_mode" "open" c) as [mode c'] eqn:E.
  pose proof (get_setting_ctx env "display_mode" "open" c) as Hc.
  rewrite E in Hc. simpl in Hc. subst c'. simpl.
  by rewrite get_db_session.
Qed.

Lemma flash_store msg cat c : store (flash msg cat c) = store c.
Proof. done. Qed.

Lemma flash_is_admin msg cat c :
  is_admin_value (session (flash msg cat c)) = is_admin_value (session c).
Proof. done. Qed.
End Facts.

(** ** What each view returns *)

(** The views behind [admin_required]: the guard fails, or it passes and
    the id binds, or it passes and binding the id raises. *)
Ltac guarded c :=
  progress unfold waitlist_admin, waitlist_assign, waitlist_seated, waitlist_delete,
    display_start, display_stop, admin_required;
  destruct (is_admin (session c)); simpl;
  try (destruct (sqlite_integer _); simpl).

(** The outcomes of [admin_login_post]. *)
Ltac login_outcomes env c :=
  unfold admin_login_post;
  destruct (settings (store (get_db env c)) !! "admin_pin_hash")
    as [[?|]|]; [destruct (check_password_hash _ _) as [[|]|]| |]; simpl.

Section Views.
Context `{Runtime}.

Lemma home_spec env c :
  home env c =
    (Render "home.html"
       (if String.eqb (get_setting env "display_mode" "open" c).1 "waitlist"
        then select_active (waitlist (store c)) else [])
       (get_setting env "display_mode" "open" c).1
       (is_admin (session c)),
     get_db env c).
Proof.
  unfold home.
  pose proof (get_setting_ctx env "display_mode" "open" c) as Hc.
  destruct (get_setting env "display_mode" "open" c) as [mode c'] eqn:E.
  simpl in Hc. subst c'. simpl.
  assert (Hmode : (get_setting env "display_mode" "open" (get_db env c)).1 = mode).
  { rewrite get_setting_value, get_db_idem, <- get_setting_value. by rewrite E. }
  destruct (String.eqb mode "waitlist");
    rewrite render_template_spec, ?get_db_idem, Hmode,
      ?get_db_session, ?get_db_waitlist; done.
Qed.

Lemma waitlist_admin_spec env c :
  is_admin (session c) = true ->
  waitlist_admin env c =
    (Render "waitlist_admin.html" (select_all (waitlist (store c)))
       (get_setting env "display_mode" "open" c).1 true,
     get_db env c).
Proof.
  intros Hadm. unfold waitlist_admin, admin_required. rewrite Hadm.
  rewrite render_template_spec, get_db_idem, get_db_session, get_db_waitlist, Hadm.
  by rewrite !get_setting_value, get_db_idem.
Qed.

Lemma admin_required_denied view_ c :
  is_admin (session c) = false ->
  admin_required view_ c =
    (Redirect (UrlForNext "admin_login" RequestPath),
     flash "Admin login required." "error" c).
Proof. intros Hadm. unfold admin_required. by rewrite Hadm. Qed.

(** *** The table *)

Lemma view_table_step env req c :
  table_step (waitlist (store c)) (waitlist (store (view env req c).2)).
Proof.
  destruct req; simpl;
    try (guarded c; rewrite ?render_template_spec; simpl;
         rewrite ?get_db_idem, ?get_db_waitlist; by constructor).
  - rewrite home_spec. simpl. rewrite get_db_waitlist. constructor.
  - unfold add_waitlist_form. rewrite render_template_spec. simpl.
    rewrite get_db_waitlist. constructor.
  - unfold add_waitlist_submit.
    destruct (_ || _ || _); simpl; [constructor|].
    destruct (sqlite_integer _); simpl; rewrite get_db_waitlist; constructor.
  - unfold admin_login. rewrite render_template_spec. simpl.
    rewrite get_db_waitlist. constructor.
  - login_outcomes env c; rewrite get_db_waitlist; constructor.
  - constructor.
  - unfold api_waitlist. destruct (mapM _ _); simpl;
      rewrite get_db_waitlist; constructor.
Qed.

Lemma db_after_table_step db ev :
  table_step (waitlist db) (waitlist (db_after db ev)).
Proof.
  unfold db_after, handle.
  pose proof (view_table_step (ev_env ev) (ev_request ev)
                {| store := db; g_db := false; session := ev_cookie ev |}) as Hs.
  destruct (view _ _ _) as [resp c']. exact Hs.
Qed.

Lemma run_cons db ev trace : run db (ev :: trace) = run (db_after db ev) trace.
Proof. done. Qed.

Lemma run_app db t1 t2 : run db (t1 ++ t2) = run (run db t1) t2.
Proof. unfold run. apply foldl_app. Qed.

Lemma run_table_steps db trace :
  rtc table_step (waitlist db) (waitlist (run db trace)).
Proof.
  revert db. induction trace as [|ev trace IH]; intros db; [done|].
  rewrite run_cons. eapply rtc_l; [apply db_after_table_step | apply IH].
Qed.
End Views.

(** ** How rows evolve *)

Lemma sql_update_lookup where_ set_ (w : list Entry.t) n :
  sql_update where_ set_ w !! n =
    (fun r => if where_ r then set_ r else r) <$> w !! n.
Proof. unfold sql_update. apply list_lookup_fmap. Qed.

Lemma live_with_id_true item_id r :
  live_with_id item_id r = true ->
  Entry.id r = item_id /\ Entry.deleted_at r = None.
Proof.
  unfold live_with_id. intros [Hid Hdel]%andb_prop.
  split; [lia|]. by destruct (Entry.deleted_at r).
Qed.

Lemma table_step_lookup (w w' : list Entry.t) n r :
  table_step w w' -> w !! n = Some r ->
  exists r', w' !! n = Some r' /\ (r' = r \/ row_step r r').
Proof.
  intros Hstep Hn. destruct Hstep.
  - eauto.
  - exists r. split; [|by left]. by apply lookup_app_l_Some.
  - rewrite sql_update_lookup, Hn. simpl.
    destruct (live_with_id item_id r) eqn:E; [|eauto].
    apply live_with_id_true in E as [_ E]. eexists; split; [done|].
    right. by constructor.
  - rewrite sql_update_lookup, Hn. simpl.
    destruct (live_with_id item_id r) eqn:E; [|eauto].
    apply live_with_id_true in E as [_ E]. eexists; split; [done|].
    right. by constructor.
  - rewrite sql_update_lookup, Hn. simpl.
    destruct (live_with_id item_id r) eqn:E; [|eauto].
    apply live_with_id_true in E as [_ E]. eexists; split; [done|].
    right. by constructor.
Qed.

Lemma table_steps_lookup (w w' : list Entry.t) n r :
  rtc table_step w w' -> w !! n = Some r ->
  exists r', w' !! n = Some r' /\ rtc row_step r r'.
Proof.
  intros Hsteps. revert r. induction Hsteps as [w|w w1 w' Hstep _ IH]; intros r Hn.
  - eauto using rtc_refl.
  - destruct (table_step_lookup _ _ _ _ Hstep Hn) as (r1 & Hn1 & Hr1).
    destruct (IH _ Hn1) as (r' & Hn' & Hr'). exists r'. split; [done|].
    destruct Hr1 as [->|Hr1]; [done|]. by eapply rtc_l.
Qed.

Create HintDb rows.

Lemma row_step_id r r' : row_step r r' -> Entry.id r' = Entry.id r.
Proof. by destruct 1. Qed.

Lemma row_steps_id r r' : rtc row_step r r' -> Entry.id r' = Entry.id r.
Proof.
  induction 1 as [|r r1 r' Hs _ IH]; [done|]. rewrite IH. by apply row_step_id.
Qed.

Lemma row_steps_deleted r r' :
  Entry.deleted_at r <> None -> rtc row_step r r' -> r' = r.
Proof. intros Hdel Hsteps. destruct Hsteps as [|r r1 r' Hs _]; [done|]. by destruct Hs. Qed.

Lemma row_step_seated_at r r' t :
  row_step r r' -> Entry.seated_at r = Some t -> Entry.seated_at r' = Some t.
Proof. destruct 1; simpl; intros Hs; rewrite ?Hs; done. Qed.

#[global] Hint Resolve row_step_seated_at : rows.

Lemma row_steps_seated_at r r' t :
  rtc row_step r r' -> Entry.seated_at r = Some t -> Entry.seated_at r' = Some t.
Proof. induction 1; eauto with rows. Qed.

Lemma row_step_not_waiting r r' :
  row_step r r' -> Entry.status r <> WAITING -> Entry.status r' <> WAITING.
Proof. destruct 1; simpl; done. Qed.

#[global] Hint Resolve row_step_not_waiting : rows.

Lemma row_steps_not_waiting r r' :
  rtc row_step r r' -> Entry.status r <> WAITING -> Entry.status r' <> WAITING.
Proof. induction 1; eauto with rows. Qed.

(** ** Row ids *)

Lemma next_rowid_above (w : list Entry.t) r :
  r ∈ w -> Entry.id r < next_rowid w.
Proof.
  unfold next_rowid. induction 1 as [r w|r r0 w _ IH]; simpl; lia.
Qed.

Lemma sql_update_elem where_ set_ (w : list Entry.t) r' :
  r' ∈ sql_update where_ set_ w ->
  exists r, r ∈ w /\ r' = (if where_ r then set_ r else r).
Proof.
  unfold sql_update. intros (r & -> & Hr)%list_elem_of_fmap. eauto.
Qed.

Lemma retired_update item_id other set_ (w : list Entry.t) :
  (forall r, Entry.id (set_ r) = Entry.id r) ->
  retired item_id w ->
  retired item_id (sql_update (live_with_id other) set_ w).
Proof.
  intros Hset [(r0 & Hr0 & Hid0) Hall]. split.
  - exists r0. split; [|done].
    unfold sql_update. apply list_elem_of_fmap. exists r0. split; [|done].
    destruct (live_with_id other r0) eqn:E; [|done].
    apply live_with_id_true in E as [_ E]. by destruct (Hall r0 Hr0 Hid0).
  - intros r' (r & Hr & ->)%sql_update_elem Hid.
    destruct (live_with_id other r) eqn:E; [|by apply Hall].
    apply live_with_id_true in E as [_ E]. rewrite Hset in Hid.
    by destruct (Hall r Hr Hid).
Qed.

Lemma table_step_retired item_id (w w' : list Entry.t) :
  table_step w w' -> retired item_id w -> retired item_id w'.
Proof.
  intros Hstep Hret. destruct Hstep.
  - done.
  - destruct Hret as [(r0 & Hr0 & Hid0) Hall]. split.
    + exists r0. split; [|done]. apply elem_of_app. by left.
    + intros r [Hr|Hr%list_elem_of_singleton]%elem_of_app Hid;
        [by apply Hall|].
      subst r. simpl in Hid. apply next_rowid_above in Hr0. lia.
  - by apply retired_update.
  - by apply retired_update.
  - by apply retired_update.
Qed.

Lemma table_steps_retired item_id (w w' : list Entry.t) :
  rtc table_step w w' -> retired item_id w -> retired item_id w'.
Proof. induction 1; eauto using table_step_retired. Qed.

(** ** Queries *)

Section Queries.
Context `{Runtime}.

Lemma ordered_active_elem (w : list Entry.t) r :
  r ∈ ordered_active w <-> r ∈ w /\ is_active r = true.
Proof.
  unfold ordered_active. rewrite merge_sort_Permutation, list_elem_of_filter.
  rewrite Is_true_true. tauto.
Qed.

Lemma select_active_prefix (w : list Entry.t) :
  select_active w = take 100 (ordered_active w).
Proof. done. Qed.

Lemma select_active_elem (w : list Entry.t) r :
  r ∈ select_active w -> r ∈ w /\ is_active r = true.
Proof.
  rewrite select_active_prefix. intros Hr. apply ordered_active_elem.
  apply elem_of_take in Hr as (i & Hi & _). eapply list_elem_of_lookup_2, Hi.
Qed.

Lemma select_all_elem (w : list Entry.t) r :
  r ∈ select_all w <-> r ∈ w /\ Entry.deleted_at r = None.
Proof.
  unfold select_all. rewrite merge_sort_Permutation, list_elem_of_filter.
  rewrite Is_true_true. destruct (Entry.deleted_at r); simpl; intuition congruence.
Qed.

Lemma is_active_true r :
  is_active r = true <->
  Entry.deleted_at r = None
  /\ (Entry.status r = WAITING \/ Entry.status r = ASSIGNING).
Proof.
  unfold is_active.
  destruct (Entry.status r), (Entry.deleted_at r); simpl;
    intuition congruence.
Qed.

Lemma ordered_active_sorted (w : list Entry.t) :
  StronglySorted by_requesttime (ordered_active w).
Proof. apply StronglySorted_merge_sort; apply _. Qed.

Lemma StronglySorted_take {A} (R : relation A) (l : list A) k :
  StronglySorted R l -> StronglySorted R (take k l).
Proof.
  intros Hs. revert k. induction Hs as [|x l Hs IH Hx]; intros [|k]; simpl;
    constructor; auto.
  apply Forall_forall. intros y (i & Hi & _)%elem_of_take.
  rewrite Forall_forall in Hx. eapply Hx, list_elem_of_lookup_2, Hi.
Qed.

Lemma select_active_sorted (w : list Entry.t) :
  StronglySorted by_requesttime (select_active w).
Proof. apply StronglySorted_take, ordered_active_sorted. Qed.

Lemma select_all_sorted (w : list Entry.t) :
  StronglySorted by_requesttime (select_all w).
Proof. apply StronglySorted_merge_sort; apply _. Qed.

Lemma api_item_shows r it : api_item r = Some it -> item_of_row r it.
Proof.
  unfold api_item. destruct (utc_str_to_et _); [|done].
  intros [= <-]. by repeat split.
Qed.

Lemma mapM_api_item_shows (rows : list Entry.t) out :
  mapM api_item rows = Some out -> Forall2 item_of_row rows out.
Proof.
  intros Hm%mapM_Some. eapply Forall2_impl; [exact Hm|].
  intros r it. apply api_item_shows.
Qed.

Lemma mapM_api_item_ids (rows : list Entry.t) out :
  mapM api_item rows = Some out -> map api_id out = map Entry.id rows.
Proof.
  intros Hm%mapM_api_item_shows.
  induction Hm as [|r it rows out Hit _ IH]; simpl; [done|].
  destruct Hit as [-> _]. by rewrite IH.
Qed.
End Queries.

(** ** The lifecycle requests *)

Section Lifecycle.
Context `{Runtime}.

Lemma db_after_view db ev :
  db_after db ev =
    store (view (ev_env ev) (ev_request ev)
             {| store := db; g_db := false; session := ev_cookie ev |}).2.
Proof. unfold db_after, handle. by destruct (view _ _ _). Qed.

Lemma response_to_view db ev :
  response_to db ev =
    (view (ev_env ev) (ev_request ev)
       {| store := db; g_db := false; session := ev_cookie ev |}).1.
Proof. unfold response_to, handle. by destruct (view _ _ _). Qed.

Lemma waitlist_assign_table env item_id c :
  is_admin (session c) = true ->
  sqlite_integer item_id = true ->
  waitlist (store (waitlist_assign env item_id c).2) =
    sql_update (live_with_id item_id)
      (fun r => set_assigned_at (Some (utc_now_str env))
                  (set_status ASSIGNING r)) (waitlist (store c)).
Proof.
  intros Hadm Hfit. unfold waitlist_assign, admin_required.
  rewrite Hadm, Hfit. simpl. by rewrite get_db_waitlist.
Qed.

Lemma waitlist_seated_table env item_id c :
  is_admin (session c) = true ->
  sqlite_integer item_id = true ->
  waitlist (store (waitlist_seated env item_id c).2) =
    sql_update (live_with_id item_id)
      (fun r => set_seated_at (coalesce (Entry.seated_at r) (utc_now_str env))
                  (set_status SEATED r)) (waitlist (store c)).
Proof.
  intros Hadm Hfit. unfold waitlist_seated, admin_required.
  rewrite Hadm, Hfit. simpl. by rewrite get_db_waitlist.
Qed.

Lemma waitlist_delete_table env item_id c :
  is_admin (session c) = true ->
  sqlite_integer item_id = true ->
  waitlist (store (waitlist_delete env item_id c).2) =
    sql_update (live_with_id item_id)
      (set_deleted_at (Some (utc_now_str env))) (waitlist (store c)).
Proof.
  intros Hadm Hfit. unfold waitlist_delete, admin_required.
  rewrite Hadm, Hfit. simpl. by rewrite get_db_waitlist.
Qed.

Lemma db_after_assign db env cookie item_id :
  is_admin cookie = true ->
  sqlite_integer item_id = true ->
  waitlist (db_after db (assign_event env cookie item_id)) =
    sql_update (live_with_id item_id)
      (fun r => set_assigned_at (Some (utc_now_str env))
                  (set_status ASSIGNING r)) (waitlist db).
Proof.
  intros Hadm Hfit. rewrite db_after_view. by apply waitlist_assign_table.
Qed.

Lemma db_after_seated db env cookie item_id :
  is_admin cookie = true ->
  sqlite_integer item_id = true ->
  waitlist (db_after db (seated_event env cookie item_id)) =
    sql_update (live_with_id item_id)
      (fun r => set_seated_at (coalesce (Entry.seated_at r) (utc_now_str env))
                  (set_status SEATED r)) (waitlist db).
Proof.
  intros Hadm Hfit. rewrite db_after_view. by apply waitlist_seated_table.
Qed.

Lemma db_after_delete db env cookie item_id :
  is_admin cookie = true ->
  sqlite_integer item_id = true ->
  waitlist (db_after db (delete_event env cookie item_id)) =
    sql_update (live_with_id item_id)
      (set_deleted_at (Some (utc_now_str env))) (waitlist db).
Proof.
  intros Hadm Hfit. rewrite db_after_view. by apply waitlist_delete_table.
Qed.

Lemma live_with_id_intro item_id r :
  Entry.id r = item_id -> Entry.deleted_at r = None ->
  live_with_id item_id r = true.
Proof.
  unfold live_with_id. intros -> ->. simpl. by rewrite Z.eqb_refl.
Qed.

Lemma live_with_id_deleted item_id r :
  Entry.deleted_at r <> None -> live_with_id item_id r = false.
Proof.
  unfold live_with_id. destruct (Entry.deleted_at r); [|done].
  intros _. apply andb_false_r.
Qed.

Lemma run_lookup db trace n r :
  waitlist db !! n = Some r ->
  exists r', waitlist (run db trace) !! n = Some r' /\ rtc row_step r r'.
Proof. apply table_steps_lookup, run_table_steps. Qed.

Lemma run_retired db trace item_id :
  retired item_id (waitlist db) -> retired item_id (waitlist (run db trace)).
Proof. apply table_steps_retired, run_table_steps. Qed.

(** A response only shows rows of the table that are not soft-deleted. *)
Lemma view_ids_live env req c j :
  j ∈ response_ids (view env req c).1 ->
  exists r, r ∈ waitlist (store c) /\ Entry.id r = j
            /\ Entry.deleted_at r = None.
Proof.
  assert (Hactive : forall rows,
    j ∈ map Entry.id rows ->
    (forall r, r ∈ rows -> r ∈ select_active (waitlist (store c))) ->
    exists r, r ∈ waitlist (store c) /\ Entry.id r = j
              /\ Entry.deleted_at r = None).
  { intros rows (r & -> & Hr)%list_elem_of_fmap Hsub.
    apply Hsub, select_active_elem in Hr as [Hr Hact].
    apply is_active_true in Hact as [Hdel _]. eauto. }
  destruct req; simpl;
    try (guarded c; by intros ?%elem_of_nil).
  - rewrite home_spec. simpl.
    destruct (String.eqb _ _); simpl; [|by intros ?%elem_of_nil].
    intros Hj. by apply (Hactive _ Hj).
  - unfold add_waitlist_form. rewrite render_template_spec. simpl.
    by intros ?%elem_of_nil.
  - unfold add_waitlist_submit. destruct (_ || _ || _); simpl;
      [|destruct (sqlite_integer _); simpl]; by intros ?%elem_of_nil.
  - guarded c; [|by intros ?%elem_of_nil].
    rewrite render_template_spec. simpl. rewrite get_db_waitlist.
    intros (r & -> & Hr)%list_elem_of_fmap.
    apply select_all_elem in Hr as [Hr Hdel]. eauto.
  - unfold admin_login. rewrite render_template_spec. simpl.
    by intros ?%elem_of_nil.
  - login_outcomes env c; by intros ?%elem_of_nil.
  - by intros ?%elem_of_nil.
  - unfold api_waitlist. rewrite get_db_waitlist.
    destruct (mapM api_item (select_active (waitlist (store c))))
      as [out|] eqn:E; simpl; [|by intros ?%elem_of_nil].
    rewrite (mapM_api_item_ids _ _ E). intros Hj. by apply (Hactive _ Hj).
Qed.

Lemma response_ids_live db ev j :
  j ∈ response_ids (response_to db ev) ->
  exists r, r ∈ waitlist db /\ Entry.id r = j /\ Entry.deleted_at r = None.
Proof. rewrite response_to_view. apply view_ids_live. Qed.
End Lifecycle.

(** ** Status lifecycle *)

(** C1, as the claim states it, fails: an admin's assign request on a
    seated party puts it back to ASSIGNING. *)
Lemma assign_moves_seated_back :
  (Entry.status <$> waitlist db_alice_seated) = [SEATED]
  /\ (Entry.status <$>
        waitlist (@run latin1_runtime db_alice_seated
                    [by_admin env_last (POST_assign 1)])) = [ASSIGNING]
  /\ status_rank ASSIGNING < status_rank SEATED.
Proof. vm_compute. repeat split; reflexivity. Qed.

(** C1 (amended): no sequence of requests brings the status of an entry back
    to WAITING once it has left it, and a soft-deleted entry is never
    changed; between ASSIGNING and SEATED no order is enforced, an admin's
    assign request sets ASSIGNING and an admin's seat request sets SEATED on
    every entry that is not deleted, whatever its status was.  (Rowids are
    64-bit integers, which the hypothesis on the id records.) *)
Theorem status_never_returns_to_waiting `{Runtime} db n r :
  waitlist db !! n = Some r ->
  (forall trace, exists r',
      waitlist (run db trace) !! n = Some r'
      /\ Entry.id r' = Entry.id r
      /\ (Entry.status r <> WAITING -> Entry.status r' <> WAITING)
      /\ (Entry.deleted_at r <> None -> r' = r))
  /\ (forall env cookie,
        is_admin cookie = true -> Entry.deleted_at r = None ->
        sqlite_integer (Entry.id r) = true ->
        (exists r', waitlist (db_after db (assign_event env cookie (Entry.id r)))
                      !! n = Some r'
                    /\ Entry.status r' = ASSIGNING)
        /\ (exists r', waitlist (db_after db (seated_event env cookie (Entry.id r)))
                         !! n = Some r'
                       /\ Entry.status r' = SEATED)).
Proof.
  intros Hn. split.
  - intros trace. destruct (run_lookup db trace n r Hn) as (r' & Hn' & Hsteps).
    exists r'. repeat split; [done|..].
    + by apply row_steps_id.
    + by apply row_steps_not_waiting.
    + intros Hdel. by apply row_steps_deleted.
  - intros env cookie Hadm Hlive Hfit. split.
    + rewrite db_after_assign, sql_update_lookup, Hn by done. simpl.
      rewrite live_with_id_intro by done. eauto.
    + rewrite db_after_seated, sql_update_lookup, Hn by done. simpl.
      rewrite live_with_id_intro by done. eauto.
Qed.

Lemma status_never_returns_to_waiting_witness :
  waitlist db_alice_seated !! 0%nat = Some alice_seated_row
  /\ exists r',
       waitlist (@run latin1_runtime db_alice_seated
                   [by_admin env_last (POST_assign 1)]) !! 0%nat = Some r'
       /\ Entry.id r' = Entry.id alice_seated_row
       /\ (Entry.status alice_seated_row <> WAITING ->
           Entry.status r' <> WAITING)
       /\ (Entry.deleted_at alice_seated_row <> None -> r' = alice_seated_row).
Proof.
  assert (Hn : waitlist db_alice_seated !! 0%nat = Some alice_seated_row)
    by (vm_compute; reflexivity).
  split; [exact Hn|].
  exact (proj1 (@status_never_returns_to_waiting latin1_runtime
                  db_alice_seated 0%nat alice_seated_row Hn)
           [by_admin env_last (POST_assign 1)]).
Defined.

(** ** Soft delete *)

(** C3: once an admin's delete request has marked a row, every later
    sequence of requests (assign, seat and delete on that id among them)
    leaves the row as it is, deleted_at included, and no page or JSON
    answer lists its id again.  (Rowids are 64-bit integers.) *)
Theorem deleted_entry_is_frozen `{Runtime} db env cookie n r :
  is_admin cookie = true ->
  waitlist db !! n = Some r ->
  sqlite_integer (Entry.id r) = true ->
  exists r1,
    waitlist (db_after db (delete_event env cookie (Entry.id r))) !! n
      = Some r1
    /\ r1 = (if is_null (Entry.deleted_at r)
             then set_deleted_at (Some (utc_now_str env)) r else r)
    /\ Entry.deleted_at r1 <> None
    /\ forall trace,
         let db' := run (db_after db (delete_event env cookie (Entry.id r)))
                      trace in
         waitlist db' !! n = Some r1
         /\ forall ev, Entry.id r ∉ response_ids (response_to db' ev).
Proof.
  intros Hadm Hn Hfit.
  set (db1 := db_after db (delete_event env cookie (Entry.id r))).
  set (r1 := if is_null (Entry.deleted_at r)
             then set_deleted_at (Some (utc_now_str env)) r else r).
  assert (Hn1 : waitlist db1 !! n = Some r1).
  { unfold db1, r1. rewrite db_after_delete, sql_update_lookup, Hn by done.
    simpl. unfold live_with_id. rewrite Z.eqb_refl. done. }
  assert (Hdel1 : Entry.deleted_at r1 <> None).
  { unfold r1. destruct (Entry.deleted_at r) eqn:E; simpl; [by rewrite E|done]. }
  assert (Hid1 : Entry.id r1 = Entry.id r).
  { unfold r1. by destruct (is_null _). }
  assert (Hret : retired (Entry.id r) (waitlist db1)).
  { split.
    - exists r1. split; [|done]. eapply list_elem_of_lookup_2, Hn1.
    - unfold db1. rewrite db_after_delete by done.
      intros r' (r0 & Hr0 & ->)%sql_update_elem Hid.
      destruct (live_with_id (Entry.id r) r0) eqn:E; [done|].
      simpl in Hid. unfold live_with_id in E. rewrite Hid, Z.eqb_refl in E.
      by destruct (Entry.deleted_at r0). }
  exists r1. split; [done|]. split; [done|]. split; [done|].
  intros trace. simpl. split.
  - destruct (run_lookup db1 trace n r1 Hn1) as (r' & Hn' & Hsteps).
    by rewrite (row_steps_deleted _ _ Hdel1 Hsteps) in Hn'.
  - intros ev (r' & Hr' & Hid' & Hlive)%response_ids_live.
    destruct (run_retired db1 trace _ Hret) as [_ Hall].
    by destruct (Hall r' Hr' Hid').
Qed.

Lemma deleted_entry_is_frozen_witness :
  is_admin admin_cookie = true
  /\ waitlist db_alice_seated !! 0%nat = Some alice_seated_row
  /\ sqlite_integer (Entry.id alice_seated_row) = true
  /\ exists r1,
       waitlist (@db_after latin1_runtime db_alice_seated
                   (delete_event env_last admin_cookie 1)) !! 0%nat = Some r1
       /\ r1 = set_deleted_at (Some "2024-05-01 18:45:00") alice_seated_row
       /\ Entry.deleted_at r1 <> None
       /\ forall trace,
            let db' := @run latin1_runtime
                         (@db_after latin1_runtime db_alice_seated
                            (delete_event env_last admin_cookie 1)) trace in
            waitlist db' !! 0%nat = Some r1
            /\ forall ev,
                 1 ∉ response_ids (@response_to latin1_runtime db' ev).
Proof.
  assert (Hn : waitlist db_alice_seated !! 0%nat = Some alice_seated_row)
    by (vm_compute; reflexivity).
  split; [reflexivity|]. split; [exact Hn|]. split; [reflexivity|].
  exact (@deleted_entry_is_frozen latin1_runtime db_alice_seated env_last
           admin_cookie 0%nat alice_seated_row eq_refl Hn eq_refl).
Defined.

(** ** Seating *)

(** C4: an admin's seat request on an entry that is not deleted leaves the
    entry SEATED with seated_at equal to the former value when there was
    one and to the current time otherwise; whatever requests follow (seat
    requests on the same id among them), seated_at keeps that value.
    (Rowids are 64-bit integers.) *)
Theorem seated_at_is_set_once `{Runtime} db env cookie n r :
  is_admin cookie = true ->
  waitlist db !! n = Some r ->
  Entry.deleted_at r = None ->
  sqlite_integer (Entry.id r) = true ->
  exists r1,
    waitlist (db_after db (seated_event env cookie (Entry.id r))) !! n
      = Some r1
    /\ Entry.status r1 = SEATED
    /\ Entry.seated_at r1
       = Some (default (utc_now_str env) (Entry.seated_at r))
    /\ forall trace, exists r2,
         waitlist (run (db_after db (seated_event env cookie (Entry.id r)))
                     trace) !! n = Some r2
         /\ Entry.seated_at r2 = Entry.seated_at r1.
Proof.
  intros Hadm Hn Hlive Hfit.
  set (db1 := db_after db (seated_event env cookie (Entry.id r))).
  set (r1 := set_seated_at (coalesce (Entry.seated_at r) (utc_now_str env))
               (set_status SEATED r)).
  assert (Hn1 : waitlist db1 !! n = Some r1).
  { unfold db1, r1. rewrite db_after_seated, sql_update_lookup, Hn by done.
    simpl. by rewrite live_with_id_intro. }
  assert (Hseat : Entry.seated_at r1
                  = Some (default (utc_now_str env) (Entry.seated_at r))).
  { unfold r1. simpl. by destruct (Entry.seated_at r). }
  exists r1. split; [done|]. split; [done|]. split; [done|].
  intros trace.
  destruct (run_lookup db1 trace n r1 Hn1) as (r2 & Hn2 & Hsteps).
  exists r2. split; [done|]. rewrite Hseat.
  by apply (row_steps_seated_at r1 r2).
Qed.

Lemma seated_at_is_set_once_witness :
  is_admin admin_cookie = true
  /\ waitlist db_alice !! 0%nat = Some alice_row
  /\ Entry.deleted_at alice_row = None
  /\ sqlite_integer (Entry.id alice_row) = true
  /\ exists r1,
       waitlist (@db_after latin1_runtime db_alice
                   (seated_event env_later admin_cookie 1)) !! 0%nat = Some r1
       /\ Entry.status r1 = SEATED
       /\ Entry.seated_at r1 = Some "2024-05-01 18:20:00"
       /\ forall trace, exists r2,
            waitlist (@run latin1_runtime
                        (@db_after latin1_runtime db_alice
                           (seated_event env_later admin_cookie 1)) trace)
              !! 0%nat = Some r2
            /\ Entry.seated_at r2 = Entry.seated_at r1.
Proof.
  assert (Hn : waitlist db_alice !! 0%nat = Some alice_row)
    by (vm_compute; reflexivity).
  split; [reflexivity|]. split; [exact Hn|]. split; [reflexivity|].
  split; [reflexivity|].
  exact (@seated_at_is_set_once latin1_runtime db_alice env_later
           admin_cookie 0%nat alice_row eq_refl Hn eq_refl eq_refl).
Defined.

(** A second seat request twenty-five minutes later keeps the first time. *)
Example seated_twice_keeps_first_time :
  Entry.seated_at <$>
    waitlist (@run latin1_runtime db_alice_seated
                [by_admin env_last (POST_seated 1)])
  = [Some "2024-05-01 18:20:00"].
Proof. vm_compute. reflexivity. Qed.

(** ** Adding a party *)

Section Create.
Context `{Runtime}.

Lemma normalize_phone_or_empty (p : option string) :
  normalize_phone (Some (or_empty p)) = normalize_phone p.
Proof. done. Qed.

Lemma parse_seats_positive (field : option string) :
  0 < parse_seats field <->
  exists s n, field = Some s /\ int s = Some n /\ 0 < n.
Proof.
  unfold parse_seats. split.
  - destruct field as [s|]; [|lia].
    destruct (int s) as [n|] eqn:E; [|lia]. eauto.
  - intros (s & n & -> & -> & Hn). done.
Qed.

(** The guard of [add_waitlist_submit] rejects exactly the invalid forms. *)
Lemma submit_guard_spec (form : AddForm) :
  falsy (strip (or_empty (form_name form)))
  || falsy (normalize_phone (Some (or_empty (form_phone form))))
  || (parse_seats (form_seats form) <=? 0) = false
  <-> valid_submission form.
Proof.
  unfold valid_submission.
  rewrite normalize_phone_or_empty, <- parse_seats_positive.
  rewrite !orb_false_iff, !falsy_false_iff, Z.leb_gt. tauto.
Qed.

Lemma add_waitlist_submit_accepts env form c :
  valid_submission form ->
  sqlite_integer (parse_seats (form_seats form)) = true ->
  add_waitlist_submit env form c =
    (Redirect (UrlFor "home"),
     flash "Party added to waitlist." "success"
       (with_store
          (with_waitlist
             (waitlist (store c) ++
                [new_entry (waitlist (store c))
                   (strip (or_empty (form_name form)))
                   (normalize_phone (form_phone form))
                   (parse_seats (form_seats form))
                   (strip (or_empty (form_notes form)))
                   (utc_now_str env)])
             (store (get_db env c)))
          (get_db env c))).
Proof.
  intros Hv%submit_guard_spec Hfit. unfold add_waitlist_submit.
  rewrite Hv, Hfit. by rewrite get_db_waitlist, normalize_phone_or_empty.
Qed.

Lemma add_waitlist_submit_overflows env form c :
  valid_submission form ->
  sqlite_integer (parse_seats (form_seats form)) = false ->
  add_waitlist_submit env form c = (ServerError, get_db env c).
Proof.
  intros Hv%submit_guard_spec Hfit. unfold add_waitlist_submit.
  by rewrite Hv, Hfit.
Qed.

Lemma add_waitlist_submit_rejects env form c :
  ~ valid_submission form ->
  add_waitlist_submit env form c =
    (Redirect (UrlFor "add_waitlist_form"),
     flash "Enter name, valid phone, and seats (>0)." "error" c).
Proof.
  intros Hv. unfold add_waitlist_submit.
  destruct (_ || _ || _) eqn:E; [done|].
  by apply submit_guard_spec in E.
Qed.

Lemma valid_submission_dec (form : AddForm) :
  valid_submission form \/ ~ valid_submission form.
Proof.
  rewrite <- submit_guard_spec. destruct (_ || _ || _); auto.
Qed.

(** X22: within the range of a 64-bit INTEGER the add-party request appends
    a row exactly for the valid forms; the appended row is WAITING with
    requesttime and requested_at both equal to the current UTC time; a
    rejected form leaves the whole store as it was; a valid form whose
    seats do not fit ends in a server error with the table as it was. *)
Lemma add_waitlist_submit_spec env form c :
  let c' := (add_waitlist_submit env form c).2 in
  (valid_submission form
   /\ sqlite_integer (parse_seats (form_seats form)) = true <->
   length (waitlist (store c')) = S (length (waitlist (store c))))
  /\ (valid_submission form ->
      sqlite_integer (parse_seats (form_seats form)) = true ->
      exists r,
        waitlist (store c') = waitlist (store c) ++ [r]
        /\ Entry.status r = WAITING
        /\ Entry.requesttime r = utc_now_str env
        /\ Entry.requested_at r = Some (utc_now_str env)
        /\ Entry.name r = strip (or_empty (form_name form))
        /\ Entry.phone r = normalize_phone (form_phone form)
        /\ (exists s, form_seats form = Some s /\ int s = Some (Entry.seats r))
        /\ 0 < Entry.seats r
        /\ Entry.assigned_at r = None
        /\ Entry.seated_at r = None
        /\ Entry.deleted_at r = None)
  /\ (~ valid_submission form -> store c' = store c)
  /\ (valid_submission form ->
      sqlite_integer (parse_seats (form_seats form)) = false ->
      (add_waitlist_submit env form c).1 = ServerError
      /\ waitlist (store c') = waitlist (store c)).
Proof.
  simpl. split; [|split; [|split]].
  - destruct (valid_submission_dec form) as [Hv|Hv].
    + destruct (sqlite_integer (parse_seats (form_seats form))) eqn:Hfit.
      * rewrite add_waitlist_submit_accepts by done. simpl.
        rewrite length_app. simpl. split; [lia|done].
      * rewrite add_waitlist_submit_overflows by done. simpl.
        rewrite get_db_waitlist. split; [by intros [_ ?]|lia].
    + rewrite add_waitlist_submit_rejects by done. simpl.
      split; [by intros [? _]|lia].
  - intros Hv Hfit. rewrite add_waitlist_submit_accepts by done. simpl.
    eexists. split; [done|]. simpl.
    destruct Hv as (_ & _ & s & n & Hs & Hint & Hn).
    unfold parse_seats. rewrite Hs, Hint. repeat split; eauto.
  - intros Hv. by rewrite add_waitlist_submit_rejects.
  - intros Hv Hfit. rewrite add_waitlist_submit_overflows by done. simpl.
    by rewrite get_db_waitlist.
Qed.
End Create.

Lemma alice_form_valid : @valid_submission latin1_runtime alice_form.
Proof.
  split; [|split]; [by vm_compute..|].
  exists "2"%string, 2. by vm_compute.
Defined.

Lemma huge_form_valid : @valid_submission latin1_runtime huge_form.
Proof.
  split; [|split]; [by vm_compute..|].
  exists "9223372036854775808"%string, (2 ^ 63). by vm_compute.
Defined.

Lemma add_waitlist_submit_spec_witness :
  @valid_submission latin1_runtime alice_form
  /\ sqlite_integer (@parse_seats latin1_runtime (form_seats alice_form))
     = true
  /\ exists r,
       waitlist (store (@add_waitlist_submit latin1_runtime env_evening
                          alice_form (guest_ctx empty_db)).2)
       = waitlist (store (guest_ctx empty_db)) ++ [r]
       /\ Entry.status r = WAITING
       /\ Entry.requesttime r = utc_now_str env_evening
       /\ Entry.requested_at r = Some (utc_now_str env_evening)
       /\ Entry.name r
          = @strip latin1_runtime (or_empty (form_name alice_form))
       /\ Entry.phone r
          = @normalize_phone latin1_runtime (form_phone alice_form)
       /\ (exists s, form_seats alice_form = Some s
                     /\ @int latin1_runtime s = Some (Entry.seats r))
       /\ 0 < Entry.seats r
       /\ Entry.assigned_at r = None
       /\ Entry.seated_at r = None
       /\ Entry.deleted_at r = None.
Proof.
  split; [exact alice_form_valid|]. split; [reflexivity|].
  exact (proj1 (proj2 (@add_waitlist_submit_spec
                         latin1_runtime env_evening alice_form
                         (guest_ctx empty_db)))
           alice_form_valid eq_refl).
Defined.

(** C2 fails on the code for a seats field beyond the 64-bit range: the
    form below has a name, a phone and seats that parse to 2^63 > 0, yet
    binding the value makes [execute] raise, the request ends in a server
    error and the table keeps its one row. *)
Theorem huge_party_is_not_inserted :
  @valid_submission latin1_runtime huge_form
  /\ @parse_seats latin1_runtime (form_seats huge_form) = 2 ^ 63
  /\ (@handle latin1_runtime env_later (POST_add_waitlist huge_form)
        anonymous db_alice).1.1 = ServerError
  /\ waitlist (@handle latin1_runtime env_later (POST_add_waitlist huge_form)
                 anonymous db_alice).2 = waitlist db_alice
  /\ waitlist db_alice = [alice_row].
Proof.
  split; [exact huge_form_valid|]. vm_compute. repeat split; reflexivity.
Qed.

(** The scenario of the specification: Alice's party of two. *)
Example alice_added :
  waitlist (@handle latin1_runtime env_evening (POST_add_waitlist alice_form)
              anonymous empty_db).2 = [alice_row].
Proof. vm_compute. reflexivity. Qed.

(** The scenario of the specification: an empty name is rejected. *)
Example nameless_form_rejected :
  (@handle latin1_runtime env_evening (POST_add_waitlist nameless_form)
     anonymous db_alice).2 = db_alice.
Proof. vm_compute. reflexivity. Qed.

(** ** Phone numbers *)

(** C5, as the claim states it, fails: a ["+"] inside the number is kept,
    so the stored text is not digits after an optional leading ["+"]. *)
Lemma plus_kept_inside_number :
  @normalize_phone latin1_runtime (Some "5+5"%string) = "5+5"%string
  /\ @digits_after_optional_plus latin1_runtime "5+5" = false.
Proof. vm_compute. split; reflexivity. Qed.

(** C5 (amended): the stored phone is the raw field with every character
    removed that is neither a digit nor ["+"], the others kept in order;
    it consists of digits and ["+"] characters only, a ["+"] being kept
    wherever it stands and as often as it occurs.  Normalizing the stored
    value again changes nothing, and the row appended by the add-party
    request holds this value. *)
Theorem normalize_phone_keeps_digits_and_plus `{Runtime} (p : option string) :
  subseq (normalize_phone p) (or_empty p)
  /\ all_chars phone_char (normalize_phone p) = true
  /\ (forall ch,
        count_char ch (normalize_phone p)
        = if phone_char ch then count_char ch (or_empty p) else O)
  /\ normalize_phone (Some (normalize_phone p)) = normalize_phone p
  /\ forall env form c,
       form_phone form = p ->
       let w := waitlist (store c) in
       let w' := waitlist (store (add_waitlist_submit env form c).2) in
       w' = w
       \/ exists r, w' = w ++ [r] /\ Entry.phone r = normalize_phone p.
Proof.
  unfold normalize_phone. split; [apply keep_chars_subseq|].
  split; [apply keep_chars_all|]. split; [apply keep_chars_count|].
  split; [apply keep_chars_fixed, keep_chars_all|].
  intros env form c <-. simpl.
  destruct (valid_submission_dec form) as [Hv|Hv].
  - destruct (sqlite_integer (parse_seats (form_seats form))) eqn:Hfit.
    + right. rewrite add_waitlist_submit_accepts by done. simpl. eauto.
    + left. rewrite add_waitlist_submit_overflows by done. simpl.
      apply get_db_waitlist.
  - left. by rewrite add_waitlist_submit_rejects.
Qed.

Lemma normalize_phone_keeps_digits_and_plus_witness :
  form_phone alice_form = Some "555-1234"%string
  /\ (waitlist (store (@add_waitlist_submit latin1_runtime env_evening
                         alice_form (guest_ctx empty_db)).2)
      = waitlist (store (guest_ctx empty_db))
      \/ exists r,
           waitlist (store (@add_waitlist_submit latin1_runtime env_evening
                              alice_form (guest_ctx empty_db)).2)
           = waitlist (store (guest_ctx empty_db)) ++ [r]
           /\ Entry.phone r
              = @normalize_phone latin1_runtime (Some "555-1234"%string)).
Proof.
  split; [reflexivity|].
  exact (proj2 (proj2 (proj2 (proj2
           (@normalize_phone_keeps_digits_and_plus latin1_runtime
              (Some "555-1234"%string)))))
           env_evening alice_form (guest_ctx empty_db) eq_refl).
Defined.

(** Superscript digits count as digits for [str.isdigit] and are kept. *)
Example superscript_two_is_kept :
  @normalize_phone latin1_runtime (Some (String "178"%char "-7"))
  = String "178"%char "7".
Proof. vm_compute. reflexivity. Qed.

(** ** Settings *)

Section Settings.
Context `{Runtime}.

Lemma get_db_settings_other env c key :
  key <> "display_mode"%string -> key <> "admin_pin_hash"%string ->
  settings (store (get_db env c)) !! key = settings (store c) !! key.
Proof.
  intros Hd Hp. unfold get_db. destruct (g_db c); [done|]. simpl.
  unfold _ensure_lifecycle_columns, _ensure_admin_pin,
    _ensure_display_default, _ensure_settings_table.
  destruct (settings (store c) !! "display_mode"); simpl;
    destruct (pin_unset _); simpl; by rewrite ?lookup_insert_ne.
Qed.

Lemma get_db_store_ext env c1 c2 :
  g_db c1 = g_db c2 -> store c1 = store c2 ->
  store (get_db env c1) = store (get_db env c2).
Proof.
  unfold get_db. intros <- Hs. destruct (g_db c1); simpl; by rewrite Hs.
Qed.

Lemma set_setting_lookup env key value c :
  settings (store (set_setting env key value c)) !! key = Some (Some value).
Proof. unfold set_setting. simpl. apply lookup_insert_eq. Qed.

Lemma set_setting_lookup_ne env key value c key' :
  key' <> key ->
  settings (store (set_setting env key value c)) !! key'
  = settings (store (get_db env c)) !! key'.
Proof. intros Hne. unfold set_setting. simpl. by apply lookup_insert_ne. Qed.
End Settings.

(** C6, as the claim states it, fails: a stored empty value is returned
    as it is, not replaced by the default. *)
Lemma empty_setting_is_returned :
  (get_setting env_evening "display_mode" "open"
     (guest_ctx {| settings := {["display_mode"%string := Some EmptyString]};
                   waitlist := [] |})).1 = EmptyString
  /\ EmptyString <> "open"%string.
Proof. split; [vm_compute; reflexivity|discriminate]. Qed.

(** C6 (amended): [get_setting] answers the stored value whenever the key
    has a row whose value is not NULL, the empty string included, and the
    default exactly when the key has no row or its value is NULL.  The row
    is looked up after the handle has been opened, which on first use seeds
    the two well-known keys; every other key is read as stored. *)
Theorem get_setting_default_only_when_null env key default c :
  (forall v, settings (store (get_db env c)) !! key = Some (Some v) ->
             (get_setting env key default c).1 = v)
  /\ (settings (store (get_db env c)) !! key = None
      \/ settings (store (get_db env c)) !! key = Some None ->
      (get_setting env key default c).1 = default)
  /\ (g_db c = true \/
      (key <> "display_mode"%string /\ key <> "admin_pin_hash"%string) ->
      settings (store (get_db env c)) !! key = settings (store c) !! key).
Proof.
  rewrite get_setting_value. split; [|split].
  - by intros v ->.
  - by intros [-> | ->].
  - intros [Hopen|[Hd Hp]]; [by rewrite get_db_opened|].
    by apply get_db_settings_other.
Qed.

Lemma get_setting_default_only_when_null_witness :
  (settings (store (get_db env_evening (guest_ctx empty_db)))
     !! "greeting"%string = None
   \/ settings (store (get_db env_evening (guest_ctx empty_db)))
        !! "greeting"%string = Some None)
  /\ (get_setting env_evening "greeting" "welcome"
        (guest_ctx empty_db)).1 = "welcome"%string.
Proof.
  assert (Habsent :
    settings (store (get_db env_evening (guest_ctx empty_db)))
      !! "greeting"%string = None) by (vm_compute; reflexivity).
  split; [left; exact Habsent|].
  exact (proj1 (proj2 (get_setting_default_only_when_null
                         env_evening "greeting" "welcome"
                         (guest_ctx empty_db)))
           (or_introl Habsent)).
Defined.

(** C8: within a request, [set_setting(k, v)] followed by
    [get_setting(k, d)] answers [v], whatever the store held for [k]
    before (no row, NULL, or another value); the other keys keep what the
    opened store held. *)
Theorem set_then_get_setting env env' key value default c :
  (get_setting env' key default (set_setting env key value c)).1 = value
  /\ settings (store (set_setting env key value c)) !! key
     = Some (Some value)
  /\ forall key', key' <> key ->
       settings (store (set_setting env key value c)) !! key'
       = settings (store (get_db env c)) !! key'.
Proof.
  split; [|split].
  - rewrite get_setting_value, get_db_opened by apply set_setting_open.
    by rewrite set_setting_lookup.
  - apply set_setting_lookup.
  - intros key'. apply set_setting_lookup_ne.
Qed.

Lemma set_then_get_setting_witness :
  "admin_pin_hash"%string <> "display_mode"%string
  /\ settings (store (set_setting env_evening "display_mode"
                        "waitlist" (guest_ctx empty_db))) !! "admin_pin_hash"
     = settings (store (get_db env_evening
                          (guest_ctx empty_db))) !! "admin_pin_hash".
Proof.
  split; [discriminate|].
  exact (proj2 (proj2 (set_then_get_setting env_evening
                         env_evening "display_mode" "waitlist" "open"
                         (guest_ctx empty_db)))
           "admin_pin_hash"%string ltac:(discriminate)).
Defined.

(** The scenario of the specification. *)
Example display_mode_round_trip :
  (get_setting env_later "display_mode" "open"
     (set_setting env_evening "display_mode" "waitlist"
        (guest_ctx empty_db))).1 = "waitlist"%string.
Proof. vm_compute. reflexivity. Qed.

(** Across requests the value is read back as well, the handle being
    reopened in between, except that an empty [admin_pin_hash] is taken
    for a missing one and seeded again. *)
Lemma reopened_store_keeps env db key v s :
  settings db !! key = Some (Some v) ->
  (key = "admin_pin_hash"%string -> v <> EmptyString) ->
  settings (store (get_db env {| store := db; g_db := false; session := s |}))
    !! key = Some (Some v).
Proof.
  intros Hk Hpin. unfold get_db. simpl.
  unfold _ensure_lifecycle_columns, _ensure_admin_pin,
    _ensure_display_default, _ensure_settings_table.
  assert (Hd : settings
                 match settings db !! "display_mode" with
                 | Some _ => db
                 | None => with_settings
                             (<["display_mode" := Some "open"]> (settings db)) db
                 end !! key = Some (Some v)).
  { destruct (settings db !! "display_mode") eqn:E; [done|]. simpl.
    rewrite lookup_insert_ne; [done|]. intros <-. congruence. }
  destruct (pin_unset _) eqn:E; [|done]. simpl.
  destruct (decide (key = "admin_pin_hash"%string)) as [->|Hne].
  - rewrite Hd in E. simpl in E. apply falsy_true_iff in E.
    by destruct (Hpin eq_refl).
  - by rewrite lookup_insert_ne.
Qed.

(** X23: a value written by [set_setting] in one request is what
    [get_setting] answers in a later request, for which the store is
    opened again; only an empty [admin_pin_hash] is excepted, since the
    opening takes it for a missing one. *)
Lemma set_then_get_next_request env env' key value default c s :
  (key = "admin_pin_hash"%string -> value <> EmptyString) ->
  (get_setting env' key default
     {| store := store (set_setting env key value c); g_db := false;
        session := s |}).1 = value.
Proof.
  intros Hpin. rewrite get_setting_value.
  by rewrite (reopened_store_keeps env' _ key value s
                (set_setting_lookup env key value c) Hpin).
Qed.

Lemma set_then_get_next_request_witness :
  ("display_mode"%string = "admin_pin_hash"%string ->
   "waitlist"%string <> EmptyString)
  /\ (get_setting env_later "display_mode" "open"
        (guest_ctx (store (set_setting env_evening "display_mode" "waitlist"
                             (guest_ctx empty_db))))).1 = "waitlist"%string.
Proof.
  split; [discriminate|].
  exact (set_then_get_next_request env_evening env_later "display_mode"
           "waitlist" "open" (guest_ctx empty_db) anonymous
           ltac:(discriminate)).
Defined.

Example empty_pin_hash_is_seeded_again :
  (get_setting env_later "admin_pin_hash" "none"
     (guest_ctx (store (set_setting env_evening "admin_pin_hash" EmptyString
                          (guest_ctx empty_db))))).1 = toy_hash "123456".
Proof. vm_compute. reflexivity. Qed.

(** ** The admin flag *)

Section Auth.
Context `{Runtime}.

Lemma handle_session env req cookie db :
  (handle env req cookie db).1.2 =
    session (view env req {| store := db; g_db := false;
                             session := cookie |}).2.
Proof. unfold handle. by destruct (view _ _ _). Qed.

(** Every view but login and logout leaves the value under ["is_admin"]
    alone. *)
Lemma view_keeps_admin_value env req c :
  (forall pin next, req <> POST_admin_login pin next) ->
  req <> POST_admin_logout ->
  is_admin_value (session (view env req c).2) = is_admin_value (session c).
Proof.
  intros Hlogin Hlogout. destruct req; simpl;
    try (guarded c; rewrite ?render_template_spec; simpl;
         by rewrite ?get_db_session).
  - rewrite home_spec. simpl. by rewrite get_db_session.
  - unfold add_waitlist_form. rewrite render_template_spec. simpl.
    by rewrite get_db_session.
  - unfold add_waitlist_submit. destruct (_ || _ || _); simpl; [done|].
    destruct (sqlite_integer _); simpl; by rewrite get_db_session.
  - unfold admin_login. rewrite render_template_spec. simpl.
    by rewrite get_db_session.
  - by destruct (Hlogin pin next).
  - done.
  - unfold api_waitlist. destruct (mapM _ _); simpl; by rewrite get_db_session.
Qed.

Lemma admin_login_post_admin_value env pin next c :
  is_admin_value (session (admin_login_post env pin next c).2) =
    match settings (store (get_db env c)) !! "admin_pin_hash" with
    | Some (Some pwhash) =>
        match check_password_hash pwhash (strip (or_empty pin)) with
        | Some true => Some true
        | _ => is_admin_value (session c)
        end
    | _ => is_admin_value (session c)
    end.
Proof.
  login_outcomes env c; by rewrite ?get_db_session.
Qed.

Lemma pin_accepted_spec env pin db cookie :
  pin_accepted env pin db =
    match settings (store (get_db env {| store := db; g_db := false;
                                         session := cookie |}))
            !! "admin_pin_hash" with
    | Some (Some pwhash) =>
        match check_password_hash pwhash (strip (or_empty pin)) with
        | Some true => true
        | _ => false
        end
    | _ => false
    end.
Proof.
  unfold pin_accepted.
  by rewrite (get_db_store_ext env
                {| store := db; g_db := false; session := anonymous |}
                {| store := db; g_db := false; session := cookie |}).
Qed.
End Auth.

(** C10: a login request whose PIN the stored hash does not accept leaves
    the value under ["is_admin"] as it was, so a session that holds the
    admin capability keeps it; an accepted PIN grants it.  Among all
    requests only logout takes the capability away, and logout always
    does. *)
Theorem failed_login_keeps_admin_flag `{Runtime} env pin next cookie db :
  (pin_accepted env pin db = false ->
   is_admin_value (handle env (POST_admin_login pin next) cookie db).1.2
   = is_admin_value cookie)
  /\ (pin_accepted env pin db = true ->
      is_admin (handle env (POST_admin_login pin next) cookie db).1.2 = true)
  /\ (is_admin cookie = true ->
      is_admin (handle env (POST_admin_login pin next) cookie db).1.2 = true)
  /\ (forall req,
        is_admin cookie = true ->
        is_admin (handle env req cookie db).1.2 = false ->
        req = POST_admin_logout)
  /\ is_admin (handle env POST_admin_logout cookie db).1.2 = false.
Proof.
  assert (Hlogin :
    is_admin_value (handle env (POST_admin_login pin next) cookie db).1.2
    = if pin_accepted env pin db then Some true else is_admin_value cookie).
  { rewrite handle_session. simpl. rewrite admin_login_post_admin_value.
    rewrite (pin_accepted_spec env pin db cookie). simpl.
    destruct (settings _ !! "admin_pin_hash") as [[pwhash|]|]; [|done..].
    by destruct (check_password_hash _ _) as [[|]|]. }
  split; [by intros Hno; rewrite Hlogin, Hno|].
  split; [by intros Hyes; unfold is_admin; rewrite Hlogin, Hyes|].
  split.
  { intros Hadm. unfold is_admin. rewrite Hlogin.
    by destruct (pin_accepted env pin db). }
  split; [|done].
  intros req Hadm Hlost.
  destruct req; try done;
    try (unfold is_admin in Hlost; rewrite handle_session,
           view_keeps_admin_value in Hlost by done;
         simpl in Hlost; unfold is_admin in Hadm; congruence).
  exfalso. unfold is_admin in Hlost. rewrite handle_session in Hlost.
  simpl in Hlost. rewrite admin_login_post_admin_value in Hlost.
  simpl in Hlost. unfold is_admin in Hadm.
  destruct (settings _ !! "admin_pin_hash") as [[pwhash|]|];
    [destruct (check_password_hash _ _) as [[|]|]| |]; congruence.
Qed.

Lemma failed_login_keeps_admin_flag_witness :
  @pin_accepted latin1_runtime env_later (Some "9999"%string) db_alice = false
  /\ is_admin_value
       (@handle latin1_runtime env_later
          (POST_admin_login (Some "9999"%string) None) admin_cookie
          db_alice).1.2
     = is_admin_value admin_cookie.
Proof.
  assert (Hno : @pin_accepted latin1_runtime env_later (Some "9999"%string)
                  db_alice = false) by (vm_compute; reflexivity).
  split; [exact Hno|].
  exact (proj1 (@failed_login_keeps_admin_flag latin1_runtime env_later
                  (Some "9999"%string) None admin_cookie db_alice) Hno).
Defined.

Example right_pin_logs_in :
  is_admin (@handle latin1_runtime env_later
              (POST_admin_login (Some " 123456 "%string) None) anonymous
              db_alice).1.2 = true.
Proof. vm_compute. reflexivity. Qed.

(** ** The active list *)

Section ActiveList.
Context `{Runtime}.

Lemma handle_response env req cookie db :
  (handle env req cookie db).1.1 =
    (view env req {| store := db; g_db := false; session := cookie |}).1.
Proof. unfold handle. by destruct (view _ _ _). Qed.

Lemma api_waitlist_response env c :
  (api_waitlist env c).1 =
    match mapM api_item (select_active (waitlist (store c))) with
    | Some out => Json out
    | None => ServerError
    end.
Proof.
  unfold api_waitlist. rewrite get_db_waitlist. by destruct (mapM _ _).
Qed.

Lemma mapM_api_item_None (rows : list Entry.t) :
  mapM api_item rows = None ->
  exists r, r ∈ rows /\ utc_str_to_et (Entry.requesttime r) = None.
Proof.
  induction rows as [|r rows IH]; simpl; [done|].
  destruct (api_item r) as [it|] eqn:Er; simpl.
  - destruct (mapM api_item rows) as [out|]; simpl; [done|].
    intros _. destruct IH as (r' & Hr' & Hnone); [done|].
    exists r'. split; [by apply elem_of_cons; right|done].
  - intros _. exists r. split; [by apply elem_of_cons; left|].
    unfold api_item in Er. by destruct (utc_str_to_et _).
Qed.

Lemma select_active_shown (w : list Entry.t) :
  Forall (fun r => r ∈ w /\ Entry.deleted_at r = None
                   /\ (Entry.status r = WAITING
                       \/ Entry.status r = ASSIGNING))
    (select_active w).
Proof.
  apply Forall_forall. intros r [Hr Hact]%select_active_elem.
  apply is_active_true in Hact as [Hdel Hst]. done.
Qed.

Lemma ordered_active_length (w : list Entry.t) :
  length (ordered_active w) = length (filter (fun r => is_active r) w).
Proof. unfold ordered_active. by rewrite merge_sort_Permutation. Qed.
End ActiveList.

(** C7: the rows of the public home page and the rows behind the JSON
    panel are rows of the table with deleted_at NULL and status WAITING or
    ASSIGNING, in ascending order of [datetime(requesttime)].  The home
    page is always rendered; the panel answers the JSON objects of its
    rows unless the requesttime of one of them cannot be parsed. *)
Theorem active_views_only_live_waiting_in_order `{Runtime} env cookie db :
  (exists rows mode adm,
     (handle env GET_home cookie db).1.1 = Render "home.html" rows mode adm
     /\ Forall (fun r => r ∈ waitlist db /\ Entry.deleted_at r = None
                         /\ (Entry.status r = WAITING
                             \/ Entry.status r = ASSIGNING)) rows
     /\ StronglySorted by_requesttime rows)
  /\ (exists rows,
        Forall (fun r => r ∈ waitlist db /\ Entry.deleted_at r = None
                         /\ (Entry.status r = WAITING
                             \/ Entry.status r = ASSIGNING)) rows
        /\ StronglySorted by_requesttime rows
        /\ (((handle env GET_api_waitlist cookie db).1.1 = ServerError
             /\ exists r, r ∈ rows
                  /\ utc_str_to_et (Entry.requesttime r) = None)
            \/ exists out,
                 (handle env GET_api_waitlist cookie db).1.1 = Json out
                 /\ Forall2 item_of_row rows out)).
Proof.
  split.
  - rewrite handle_response. simpl. rewrite home_spec. simpl.
    do 3 eexists. split; [done|].
    destruct (String.eqb _ _).
    + split; [apply select_active_shown|apply select_active_sorted].
    + split; constructor.
  - exists (select_active (waitlist db)).
    split; [apply select_active_shown|].
    split; [apply select_active_sorted|].
    rewrite handle_response. simpl. rewrite api_waitlist_response. simpl.
    destruct (mapM api_item (select_active (waitlist db))) as [out|] eqn:E.
    + right. exists out. split; [done|]. by apply mapM_api_item_shows.
    + left. split; [done|]. by apply mapM_api_item_None.
Qed.

(** C9: both views show at most 100 rows, namely the first 100 of the
    active rows in display order; when more than 100 rows are active the
    rest is left out. *)
Theorem active_views_capped_at_100 `{Runtime} env cookie db :
  (exists rows mode adm,
     (handle env GET_home cookie db).1.1 = Render "home.html" rows mode adm
     /\ (length rows <= 100)%nat
     /\ rows = if String.eqb mode "waitlist"
               then take 100 (ordered_active (waitlist db)) else [])
  /\ ((handle env GET_api_waitlist cookie db).1.1 = ServerError
      \/ exists out,
           (handle env GET_api_waitlist cookie db).1.1 = Json out
           /\ (length out <= 100)%nat
           /\ Forall2 item_of_row (take 100 (ordered_active (waitlist db)))
                out)
  /\ ((100 < length (filter (fun r => is_active r) (waitlist db)))%nat ->
      length (take 100 (ordered_active (waitlist db))) = 100%nat
      /\ drop 100 (ordered_active (waitlist db)) <> []
      /\ ordered_active (waitlist db)
         = take 100 (ordered_active (waitlist db))
           ++ drop 100 (ordered_active (waitlist db))).
Proof.
  split; [|split].
  - rewrite handle_response. simpl. rewrite home_spec. simpl.
    do 3 eexists. split; [done|].
    rewrite select_active_prefix.
    destruct (String.eqb _ _); simpl; [|split; [lia|done]].
    split; [|done]. rewrite length_take. lia.
  - rewrite handle_response. simpl. rewrite api_waitlist_response. simpl.
    rewrite select_active_prefix.
    destruct (mapM api_item _) as [out|] eqn:E; [right|by left].
    exists out. split; [done|].
    pose proof (mapM_api_item_shows _ _ E) as Hshow.
    split; [|done].
    rewrite <- (Forall2_length _ _ _ Hshow), length_take. lia.
  - intros Hmany. rewrite <- ordered_active_length in Hmany.
    split; [rewrite length_take; lia|].
    split; [|by rewrite take_drop].
    intros Hnil. apply (f_equal length) in Hnil.
    rewrite length_drop in Hnil. simpl in Hnil. lia.
Qed.

Lemma active_views_capped_at_100_witness :
  (100 < length (filter (fun r => is_active r) (waitlist crowded_db)))%nat
  /\ length (take 100 (@ordered_active latin1_runtime (waitlist crowded_db)))
     = 100%nat
  /\ drop 100 (@ordered_active latin1_runtime (waitlist crowded_db)) <> []
  /\ @ordered_active latin1_runtime (waitlist crowded_db)
     = take 100 (@ordered_active latin1_runtime (waitlist crowded_db))
       ++ drop 100 (@ordered_active latin1_runtime (waitlist crowded_db)).
Proof.
  assert (Hmany : (100 < length (filter (fun r => is_active r)
                                   (waitlist crowded_db)))%nat)
    by (vm_compute; lia).
  split; [exact Hmany|].
  exact (proj2 (proj2 (@active_views_capped_at_100 latin1_runtime
                         env_evening anonymous crowded_db)) Hmany).
Defined.

(** With 101 waiting parties the home page and the panel show 100. *)
Example crowded_home_shows_100 :
  length (response_ids
            (@handle latin1_runtime env_evening GET_home anonymous
               crowded_db).1.1) = 100%nat
  /\ length (response_ids
               (@handle latin1_runtime env_evening GET_api_waitlist anonymous
                  crowded_db).1.1) = 100%nat.
Proof. vm_compute. split; reflexivity. Qed.

(** Rows come out by arrival time, not by rowid; seated and removed
    parties are left out. *)
Example shuffled_home_order :
  response_ids (@handle latin1_runtime env_last GET_home anonymous
                  shuffled_db).1.1 = [2; 1]
  /\ response_ids (@handle latin1_runtime env_last GET_api_waitlist anonymous
                     shuffled_db).1.1 = [2; 1]
  /\ response_ids (@handle latin1_runtime env_last GET_waitlist admin_cookie
                     shuffled_db).1.1 = [2; 3; 1].
Proof. vm_compute. repeat split; reflexivity. Qed.

(** * Further properties of the code *)

(** ** Opening the store *)

Lemma opened_display_mode env c :
  g_db c = false ->
  settings (store (get_db env c)) !! "display_mode"
  = Some (default (Some "open"%string) (settings (store c) !! "display_mode")).
Proof.
  intros Hclosed. unfold get_db. rewrite Hclosed. simpl.
  unfold _ensure_lifecycle_columns, _ensure_admin_pin,
    _ensure_display_default, _ensure_settings_table.
  destruct (settings (store c) !! "display_mode") as [v|] eqn:Ed; simpl;
    destruct (pin_unset _); simpl;
    rewrite ?lookup_insert_ne, ?lookup_insert_eq by done; done.
Qed.

Lemma opened_pin_hash env c :
  g_db c = false ->
  settings (store (get_db env c)) !! "admin_pin_hash"
  = Some (Some (match settings (store c) !! "admin_pin_hash" with
                | Some (Some (String ch h)) => String ch h
                | _ => seed_pin_hash env
                end)).
Proof.
  intros Hclosed. unfold get_db. rewrite Hclosed. simpl.
  unfold _ensure_lifecycle_columns, _ensure_admin_pin,
    _ensure_display_default, _ensure_settings_table.
  destruct (settings (store c) !! "display_mode") as [v|] eqn:Ed; simpl;
    rewrite ?lookup_insert_ne by done;
    destruct (settings (store c) !! "admin_pin_hash") as [[[|ch h]|]|] eqn:Ep;
    simpl; rewrite ?lookup_insert_eq, ?lookup_insert_ne by done; done.
Qed.

(** X1: opening the store for a request creates only what is missing:
    [display_mode] becomes "open" when it has no row and is kept otherwise
    (a NULL value too); [admin_pin_hash] is kept when it holds a non-empty
    hash and becomes the freshly generated hash when it has no row or is
    NULL or empty; every other setting and every waitlist row is left
    untouched. *)
Theorem opening_seeds_only_what_is_missing env db cookie :
  let db' := store (get_db env {| store := db; g_db := false;
                                  session := cookie |}) in
  waitlist db' = waitlist db
  /\ (forall key, key <> "display_mode"%string ->
                  key <> "admin_pin_hash"%string ->
                  settings db' !! key = settings db !! key)
  /\ settings db' !! "display_mode"
     = Some (default (Some "open"%string) (settings db !! "display_mode"))
  /\ settings db' !! "admin_pin_hash"
     = Some (Some (match settings db !! "admin_pin_hash" with
                   | Some (Some (String ch h)) => String ch h
                   | _ => seed_pin_hash env
                   end)).
Proof.
  cbv zeta. split; [apply get_db_waitlist|].
  split; [intros key Hd Hp; by apply get_db_settings_other|].
  split; [by apply opened_display_mode|by apply opened_pin_hash].
Qed.

Lemma opening_seeds_only_what_is_missing_witness :
  "greeting"%string <> "display_mode"%string
  /\ "greeting"%string <> "admin_pin_hash"%string
  /\ settings (store (get_db env_evening (guest_ctx db_alice))) !! "greeting"
     = settings db_alice !! "greeting".
Proof.
  split; [discriminate|]. split; [discriminate|].
  exact (proj1 (proj2 (opening_seeds_only_what_is_missing env_evening
                         db_alice anonymous))
           "greeting"%string ltac:(discriminate) ltac:(discriminate)).
Defined.

Lemma opened_twice env env' c :
  g_db c = false ->
  seed_pin_hash env <> EmptyString ->
  store (get_db env' {| store := store (get_db env c); g_db := false;
                        session := session c |})
  = store (get_db env c).
Proof.
  intros Hclosed Hseed.
  pose proof (opened_display_mode env c Hclosed) as Hd.
  pose proof (opened_pin_hash env c Hclosed) as Hp.
  set (db1 := store (get_db env c)) in *.
  unfold get_db. simpl.
  unfold _ensure_lifecycle_columns, _ensure_admin_pin,
    _ensure_display_default, _ensure_settings_table.
  rewrite Hd. rewrite Hp. simpl.
  destruct (settings (store c) !! "admin_pin_hash") as [[[|ch h]|]|];
    simpl; try done;
    destruct (seed_pin_hash env) eqn:Es; simpl; done.
Qed.

(** X2: the initialisation is idempotent: a store that one request has
    opened is left exactly as it is when a later request opens it again,
    provided the generated hash is not empty (werkzeug's never is). *)
Theorem reopening_changes_nothing env env' db cookie cookie' :
  seed_pin_hash env <> EmptyString ->
  store (get_db env'
           {| store := store (get_db env {| store := db; g_db := false;
                                            session := cookie |});
              g_db := false; session := cookie' |})
  = store (get_db env {| store := db; g_db := false; session := cookie |}).
Proof.
  intros Hseed.
  rewrite <- (opened_twice env env'
                {| store := db; g_db := false; session := cookie |})
    at 2 by done.
  apply get_db_store_ext; done.
Qed.

Lemma reopening_changes_nothing_witness :
  seed_pin_hash env_evening <> EmptyString
  /\ store (get_db env_later
              {| store := store (get_db env_evening (guest_ctx empty_db));
                 g_db := false; session := admin_cookie |})
     = store (get_db env_evening (guest_ctx empty_db)).
Proof.
  split; [discriminate|].
  exact (reopening_changes_nothing env_evening env_later empty_db anonymous
           admin_cookie ltac:(discriminate)).
Defined.

(** Without that proviso the second opening seeds the hash again. *)
Example empty_seed_is_replaced :
  settings (store (get_db env_evening
                     (guest_ctx (store (get_db env_hashless
                                          (guest_ctx empty_db))))))
    !! "admin_pin_hash" = Some (Some (toy_hash "123456"))
  /\ settings (store (get_db env_hashless (guest_ctx empty_db)))
       !! "admin_pin_hash" = Some (Some EmptyString).
Proof. vm_compute. split; reflexivity. Qed.

(** ** Who may change what *)

Section Guests.
Context `{Runtime}.

(** What a request without the admin capability does to the store. *)
Lemma guest_view_store env req c :
  is_admin (session c) = false ->
  (settings (store (view env req c).2) = settings (store c)
   \/ settings (store (view env req c).2) = settings (store (get_db env c)))
  /\ (waitlist (store (view env req c).2) = waitlist (store c)
      \/ exists r, waitlist (store (view env req c).2)
                   = waitlist (store c) ++ [r]).
Proof.
  intros Hguest.
  destruct req; simpl;
    try (progress unfold waitlist_admin, waitlist_assign, waitlist_seated,
           waitlist_delete, display_start, display_stop;
         rewrite admin_required_denied by done; simpl; by auto).
  - rewrite home_spec. simpl. rewrite get_db_waitlist. auto.
  - unfold add_waitlist_form. rewrite render_template_spec. simpl.
    rewrite get_db_waitlist. auto.
  - unfold add_waitlist_submit. destruct (_ || _ || _); simpl; [by auto|].
    destruct (sqlite_integer _); simpl; rewrite get_db_waitlist; eauto.
  - unfold admin_login. rewrite render_template_spec. simpl.
    rewrite get_db_waitlist. auto.
  - login_outcomes env c; rewrite get_db_waitlist; auto.
  - auto.
  - unfold api_waitlist. destruct (mapM _ _); simpl;
      rewrite get_db_waitlist; auto.
Qed.

Lemma guest_db_after db ev :
  guest_event ev ->
  (waitlist (db_after db ev) = waitlist db
   \/ exists r, waitlist (db_after db ev) = waitlist db ++ [r])
  /\ forall v, settings db !! "display_mode" = Some v ->
               settings (db_after db ev) !! "display_mode" = Some v.
Proof.
  intros Hguest. rewrite db_after_view.
  set (c := {| store := db; g_db := false; session := ev_cookie ev |}).
  destruct (guest_view_store (ev_env ev) (ev_request ev) c Hguest)
    as [Hset Hrows].
  split; [exact Hrows|].
  intros v Hv. destruct Hset as [-> | ->]; [done|].
  rewrite (opened_display_mode (ev_env ev) c eq_refl). simpl.
  by rewrite Hv.
Qed.
End Guests.

(** X3: a request to an admin-only view from a session without the admin
    capability does nothing to the store (the database is not even
    opened): it is answered by the redirect to the login page, and the
    session only gains the flash message. *)
Theorem admin_only_request_denied `{Runtime} env req cookie db :
  admin_only req = true ->
  is_admin cookie = false ->
  handle env req cookie db
  = (Redirect (UrlForNext "admin_login" RequestPath),
     {| is_admin_value := is_admin_value cookie;
        flashes := flashes cookie ++ [("error"%string,
                                       "Admin login required."%string)] |},
     db).
Proof.
  intros Honly Hguest. unfold handle.
  destruct req; try discriminate; simpl;
    unfold waitlist_admin, waitlist_assign, waitlist_seated,
      waitlist_delete, display_start, display_stop;
    by rewrite admin_required_denied.
Qed.

Lemma admin_only_request_denied_witness :
  admin_only (POST_delete 1) = true
  /\ is_admin anonymous = false
  /\ @handle latin1_runtime env_later (POST_delete 1) anonymous db_alice
     = (Redirect (UrlForNext "admin_login" RequestPath),
        {| is_admin_value := None;
           flashes := [("error"%string, "Admin login required."%string)] |},
        db_alice).
Proof.
  split; [reflexivity|]. split; [reflexivity|].
  exact (@admin_only_request_denied latin1_runtime env_later (POST_delete 1)
           anonymous db_alice eq_refl eq_refl).
Defined.

(** X4: whatever requests arrive, as long as none of them carries the admin
    capability the rows already in the table stay exactly as they are
    (rows are only appended), and a display mode that is set stays as it
    is. *)
Theorem guests_only_append `{Runtime} db trace :
  Forall guest_event trace ->
  waitlist db `prefix_of` waitlist (run db trace)
  /\ forall v, settings db !! "display_mode" = Some v ->
               settings (run db trace) !! "display_mode" = Some v.
Proof.
  intros Hguests. revert db.
  induction Hguests as [|ev trace Hev _ IH]; intros db; [done|].
  rewrite run_cons. destruct (guest_db_after db ev Hev) as [Hrows Hmode].
  destruct (IH (db_after db ev)) as [IHrows IHmode]. split.
  - etrans; [|exact IHrows].
    destruct Hrows as [->|[r ->]]; [done|]. by apply prefix_app_r.
  - intros v Hv. by apply IHmode, Hmode.
Qed.

Lemma guests_only_append_witness :
  Forall guest_event
    [by_guest env_later (POST_delete 1);
     by_guest env_later (POST_add_waitlist alice_form);
     by_guest env_last POST_display_stop]
  /\ waitlist db_alice `prefix_of`
       waitlist (@run latin1_runtime db_alice
                   [by_guest env_later (POST_delete 1);
                    by_guest env_later (POST_add_waitlist alice_form);
                    by_guest env_last POST_display_stop]).
Proof.
  assert (Hguests : Forall guest_event
    [by_guest env_later (POST_delete 1);
     by_guest env_later (POST_add_waitlist alice_form);
     by_guest env_last POST_display_stop])
    by (repeat constructor).
  split; [exact Hguests|].
  exact (proj1 (@guests_only_append latin1_runtime db_alice _ Hguests)).
Defined.

(** X5: the admin capability is gained in one way only: a session without
    it has it after a request only if the request was a login whose PIN
    the stored hash accepts. *)
Theorem capability_only_by_accepted_login `{Runtime} env req cookie db :
  is_admin cookie = false ->
  is_admin (handle env req cookie db).1.2 = true ->
  exists pin next,
    req = POST_admin_login pin next /\ pin_accepted env pin db = true.
Proof.
  intros Hguest Hgained. unfold is_admin in Hguest, Hgained.
  rewrite handle_session in Hgained.
  destruct req;
    try (rewrite view_keeps_admin_value in Hgained by discriminate;
         simpl in Hgained; congruence).
  all: try done.
  exists pin, next. split; [done|].
  simpl in Hgained. rewrite admin_login_post_admin_value in Hgained.
  rewrite (pin_accepted_spec env pin db cookie). simpl in Hgained.
  destruct (settings _ !! "admin_pin_hash") as [[pwhash|]|];
    [|congruence..].
  destruct (check_password_hash _ _) as [[|]|]; congruence.
Qed.

Lemma capability_only_by_accepted_login_witness :
  is_admin anonymous = false
  /\ is_admin (@handle latin1_runtime env_later
                 (POST_admin_login (Some "123456"%string) None) anonymous
                 db_alice).1.2 = true
  /\ exists pin next,
       POST_admin_login (Some "123456"%string) None
       = POST_admin_login pin next
       /\ @pin_accepted latin1_runtime env_later pin db_alice = true.
Proof.
  assert (Hin : is_admin (@handle latin1_runtime env_later
                            (POST_admin_login (Some "123456"%string) None)
                            anonymous db_alice).1.2 = true)
    by (vm_compute; reflexivity).
  split; [reflexivity|]. split; [exact Hin|].
  exact (@capability_only_by_accepted_login latin1_runtime env_later
           (POST_admin_login (Some "123456"%string) None) anonymous db_alice
           eq_refl Hin).
Defined.

(** ** What requests do to the table *)

Section Effects.
Context `{Runtime}.

(** One request either appends one row made by [add_waitlist_submit] or
    maps the rows in place, each one kept or advanced by one statement. *)
Lemma view_effect env req c :
  (exists name phone seats notes,
     waitlist (store (view env req c).2)
     = waitlist (store c)
       ++ [new_entry (waitlist (store c)) name phone seats notes
             (utc_now_str env)]
     /\ name <> EmptyString /\ phone <> EmptyString
     /\ all_chars phone_char phone = true
     /\ 0 < seats /\ sqlite_integer seats = true)
  \/ (exists f,
        waitlist (store (view env req c).2) = map f (waitlist (store c))
        /\ forall r, f r = r \/ row_step r (f r)).
Proof.
  assert (Hsame : forall w : list Entry.t,
            exists f, w = map f w /\ forall r, f r = r \/ row_step r (f r)).
  { intros w. exists (fun r => r). split; [by rewrite map_id|by left]. }
  assert (Hupd : forall item_id set_ (w : list Entry.t),
            (forall r, Entry.deleted_at r = None -> row_step r (set_ r)) ->
            exists f, sql_update (live_with_id item_id) set_ w = map f w
                      /\ forall r, f r = r \/ row_step r (f r)).
  { intros item_id set_ w Hset. eexists. split; [reflexivity|].
    intros r. simpl. destruct (live_with_id item_id r) eqn:E; [|by left].
    apply live_with_id_true in E as [_ E]. right. by apply Hset. }
  destruct req; simpl;
    try (guarded c; rewrite ?render_template_spec; simpl;
         rewrite ?get_db_idem, ?get_db_waitlist; right;
         first [apply Hsame | apply Hupd; intros; by constructor]).
  - rewrite home_spec. simpl. rewrite get_db_waitlist. right. apply Hsame.
  - unfold add_waitlist_form. rewrite render_template_spec. simpl.
    rewrite get_db_waitlist. right. apply Hsame.
  - destruct (valid_submission_dec form) as [Hv|Hv].
    + destruct (sqlite_integer (parse_seats (form_seats form))) eqn:Hfit.
      * left. rewrite add_waitlist_submit_accepts by done. simpl.
        do 4 eexists. split; [reflexivity|].
        destruct Hv as (Hname & Hphone & Hseats).
        apply parse_seats_positive in Hseats.
        repeat split; try done. apply keep_chars_all.
      * right. rewrite add_waitlist_submit_overflows by done. simpl.
        rewrite get_db_waitlist. apply Hsame.
    + right. rewrite add_waitlist_submit_rejects by done. apply Hsame.
  - unfold admin_login. rewrite render_template_spec. simpl.
    rewrite get_db_waitlist. right. apply Hsame.
  - right. login_outcomes env c; rewrite get_db_waitlist; apply Hsame.
  - right. apply Hsame.
  - right. unfold api_waitlist. destruct (mapM _ _); simpl;
      rewrite get_db_waitlist; apply Hsame.
Qed.

(** A property of the table that every view keeps holds after every
    sequence of requests. *)
Lemma run_invariant (P : list Entry.t -> Prop) :
  (forall env req c,
     P (waitlist (store c)) -> P (waitlist (store (view env req c).2))) ->
  forall db trace, P (waitlist db) -> P (waitlist (run db trace)).
Proof.
  intros Hview db trace. revert db.
  induction trace as [|ev trace IH]; intros db Hdb; [done|].
  rewrite run_cons. apply IH. rewrite db_after_view. by apply Hview.
Qed.

(** Row by row: what holds of new rows and survives every statement holds
    of all rows for ever. *)
Lemma run_rows_invariant (P : Entry.t -> Prop) :
  (forall r r', row_step r r' -> P r -> P r') ->
  (forall w name phone seats notes now,
     name <> EmptyString -> phone <> EmptyString ->
     all_chars phone_char phone = true ->
     0 < seats -> sqlite_integer seats = true ->
     P (new_entry w name phone seats notes now)) ->
  forall db trace,
    Forall P (waitlist db) -> Forall P (waitlist (run db trace)).
Proof.
  intros Hstep Hnew. apply (run_invariant (Forall P)).
  intros env req c Hw.
  destruct (view_effect env req c)
    as [(name & phone & seats & notes & -> & ? & ? & ? & ? & ?)
       |(f & -> & Hf)].
  - apply Forall_app. split; [done|]. constructor; [|done]. by apply Hnew.
  - apply Forall_fmap. eapply Forall_impl; [exact Hw|].
    intros r Hr. simpl. destruct (Hf r) as [->|Hs]; [done|].
    by apply (Hstep r).
Qed.

Lemma row_steps_same_party r r' : rtc row_step r r' -> same_party r r'.
Proof.
  induction 1 as [r|r r1 r' Hs _ IH]; [by repeat split|].
  destruct IH as (? & ? & ? & ? & ? & ? & ?).
  destruct Hs; simpl in *; by repeat split.
Qed.

Lemma table_step_length (w w' : list Entry.t) :
  table_step w w' -> (length w <= length w')%nat.
Proof.
  destruct 1; unfold sql_update; rewrite ?length_app, ?length_map; lia.
Qed.

Lemma run_length db trace :
  (length (waitlist db) <= length (waitlist (run db trace)))%nat.
Proof.
  pose proof (run_table_steps db trace) as Hsteps.
  induction Hsteps as [|w w1 w' Hs _ IH]; [done|].
  apply table_step_length in Hs. lia.
Qed.

Lemma next_rowid_numbered (w : list Entry.t) :
  numbered w -> next_rowid w = Z.of_nat (S (length w)).
Proof.
  unfold numbered, next_rowid. intros ->.
  assert (Hmax : forall n k,
    foldr Z.max 0 ((fun k => Z.of_nat (S k)) <$> seq k n)
    = if n is O then 0 else Z.of_nat (k + n)).
  { induction n as [|n IH]; intros k; [done|]. simpl. rewrite IH.
    destruct n; lia. }
  rewrite Hmax. destruct (length w); lia.
Qed.
End Effects.

Lemma live_with_id_other item_id r :
  Entry.id r <> item_id -> live_with_id item_id r = false.
Proof.
  intros Hne. unfold live_with_id.
  destruct (Z.eqb_spec (Entry.id r) item_id); done.
Qed.

(** X6: an admin's assign request on an entry that is not deleted sets
    status ASSIGNING and assigned_at to the current time and changes no
    other column; a second assign request overwrites assigned_at with the
    later time (unlike seated_at, which keeps the first). *)
Theorem assign_takes_latest_time `{Runtime} db env env' cookie cookie' n r :
  is_admin cookie = true ->
  is_admin cookie' = true ->
  waitlist db !! n = Some r ->
  Entry.deleted_at r = None ->
  sqlite_integer (Entry.id r) = true ->
  waitlist (db_after db (assign_event env cookie (Entry.id r))) !! n
  = Some (set_assigned_at (Some (utc_now_str env)) (set_status ASSIGNING r))
  /\ waitlist (run db [assign_event env cookie (Entry.id r);
                       assign_event env' cookie' (Entry.id r)]) !! n
     = Some (set_assigned_at (Some (utc_now_str env'))
               (set_status ASSIGNING r)).
Proof.
  intros Hadm Hadm' Hn Hlive Hfit.
  assert (H1 : waitlist (db_after db (assign_event env cookie (Entry.id r)))
                 !! n
               = Some (set_assigned_at (Some (utc_now_str env))
                         (set_status ASSIGNING r))).
  { rewrite db_after_assign, sql_update_lookup, Hn by done. simpl.
    by rewrite live_with_id_intro. }
  split; [exact H1|].
  rewrite run_cons. simpl.
  change (Entry.id r)
    with (Entry.id (set_assigned_at (Some (utc_now_str env))
                      (set_status ASSIGNING r))) at 2.
  rewrite db_after_assign, sql_update_lookup, H1 by done. simpl.
  by rewrite live_with_id_intro.
Qed.

Lemma assign_takes_latest_time_witness :
  is_admin admin_cookie = true
  /\ waitlist db_alice !! 0%nat = Some alice_row
  /\ Entry.deleted_at alice_row = None
  /\ sqlite_integer (Entry.id alice_row) = true
  /\ waitlist (@run latin1_runtime db_alice
                 [assign_event env_later admin_cookie 1;
                  assign_event env_last admin_cookie 1]) !! 0%nat
     = Some (set_assigned_at (Some "2024-05-01 18:45:00"%string)
               (set_status ASSIGNING alice_row)).
Proof.
  assert (Hn : waitlist db_alice !! 0%nat = Some alice_row)
    by (vm_compute; reflexivity).
  split; [reflexivity|]. split; [exact Hn|]. split; [reflexivity|].
  split; [reflexivity|].
  exact (proj2 (@assign_takes_latest_time latin1_runtime db_alice env_later
                  env_last admin_cookie admin_cookie 0%nat alice_row
                  eq_refl eq_refl Hn eq_refl eq_refl)).
Defined.

Lemma lifecycle_view_touches_one_id `{Runtime} env req c item_id :
  req = POST_assign item_id \/ req = POST_seated item_id
  \/ req = POST_delete item_id ->
  length (waitlist (store (view env req c).2)) = length (waitlist (store c))
  /\ forall n r,
       waitlist (store c) !! n = Some r -> Entry.id r <> item_id ->
       waitlist (store (view env req c).2) !! n = Some r.
Proof.
  intros [->|[->| ->]]; simpl; guarded c;
    rewrite ?get_db_waitlist; (split; [|intros n r Hn Hne]);
    unfold sql_update; rewrite ?length_map, ?list_lookup_fmap, ?Hn; simpl;
    rewrite ?live_with_id_other by done; done.
Qed.

(** X7: an assign, seat or delete request for one id concerns that id
    only: whoever sends it, the table keeps its length and every row with
    another id stays exactly as it is. *)
Theorem lifecycle_request_touches_one_id `{Runtime} db ev item_id :
  ev_request ev = POST_assign item_id
  \/ ev_request ev = POST_seated item_id
  \/ ev_request ev = POST_delete item_id ->
  length (waitlist (db_after db ev)) = length (waitlist db)
  /\ forall n r,
       waitlist db !! n = Some r -> Entry.id r <> item_id ->
       waitlist (db_after db ev) !! n = Some r.
Proof.
  intros Hreq. rewrite db_after_view.
  exact (lifecycle_view_touches_one_id (ev_env ev) (ev_request ev)
           {| store := db; g_db := false; session := ev_cookie ev |}
           item_id Hreq).
Qed.

Lemma lifecycle_request_touches_one_id_witness :
  (ev_request (by_admin env_last (POST_delete 2)) = POST_assign 2
   \/ ev_request (by_admin env_last (POST_delete 2)) = POST_seated 2
   \/ ev_request (by_admin env_last (POST_delete 2)) = POST_delete 2)
  /\ length (waitlist (@db_after latin1_runtime shuffled_db
                         (by_admin env_last (POST_delete 2))))
     = length (waitlist shuffled_db).
Proof.
  split; [right; right; reflexivity|].
  exact (proj1 (@lifecycle_request_touches_one_id latin1_runtime shuffled_db
                  (by_admin env_last (POST_delete 2)) 2
                  (or_intror (or_intror eq_refl)))).
Defined.

(** X8: no request removes a row or rewrites who the party is: after any
    sequence of requests every row is still at its place in the table
    with the same id, name, phone, seats, notes, requesttime and
    requested_at; only status and the three later timestamps move. *)
Theorem rows_are_never_removed `{Runtime} db trace n r :
  waitlist db !! n = Some r ->
  (length (waitlist db) <= length (waitlist (run db trace)))%nat
  /\ exists r', waitlist (run db trace) !! n = Some r' /\ same_party r r'.
Proof.
  intros Hn. split; [apply run_length|].
  destruct (run_lookup db trace n r Hn) as (r' & Hn' & Hsteps).
  exists r'. split; [done|]. by apply row_steps_same_party.
Qed.

Lemma rows_are_never_removed_witness :
  waitlist db_alice !! 0%nat = Some alice_row
  /\ exists r',
       waitlist (@run latin1_runtime db_alice
                   [by_admin env_later (POST_seated 1);
                    by_admin env_last (POST_delete 1)]) !! 0%nat = Some r'
       /\ same_party alice_row r'.
Proof.
  assert (Hn : waitlist db_alice !! 0%nat = Some alice_row)
    by (vm_compute; reflexivity).
  split; [exact Hn|].
  exact (proj2 (@rows_are_never_removed latin1_runtime db_alice
                  [by_admin env_later (POST_seated 1);
                   by_admin env_last (POST_delete 1)] 0%nat alice_row Hn)).
Defined.

(** X9: status and timestamps stay in step: if in every row a WAITING
    party has neither assigned_at nor seated_at, an ASSIGNING one has
    assigned_at and a SEATED one has seated_at, the same holds after any
    sequence of requests. *)
Theorem stamps_agree_is_kept `{Runtime} db trace :
  Forall stamps_agree (waitlist db) ->
  Forall stamps_agree (waitlist (run db trace)).
Proof.
  apply run_rows_invariant.
  - intros r r' Hs Hr. unfold stamps_agree in *.
    destruct Hs; simpl; try done.
    by destruct (Entry.seated_at r).
  - intros. by split.
Qed.

Lemma stamps_agree_is_kept_witness :
  Forall stamps_agree (waitlist shuffled_db)
  /\ Forall stamps_agree
       (waitlist (@run latin1_runtime shuffled_db
                    [by_admin env_last (POST_assign 3);
                     by_admin env_last (POST_seated 1)])).
Proof.
  assert (Hw : Forall stamps_agree (waitlist shuffled_db)).
  { repeat constructor; discriminate. }
  split; [exact Hw|].
  exact (@stamps_agree_is_kept latin1_runtime shuffled_db _ Hw).
Defined.

(** X10: what the add-party form guarantees of a row lasts: if every row
    has a non-empty name, a non-empty phone made of digits and ["+"] only,
    seats between 1 and 2^63-1, notes that are not NULL and requested_at
    equal to requesttime, then so has every row after any sequence of
    requests, the new rows included. *)
Theorem stored_rows_stay_as_created `{Runtime} db trace :
  Forall as_created (waitlist db) ->
  Forall as_created (waitlist (run db trace)).
Proof.
  apply run_rows_invariant.
  - intros r r' Hs Hr. unfold as_created in *. by destruct Hs.
  - intros. by repeat split.
Qed.

Lemma stored_rows_stay_as_created_witness :
  Forall (@as_created latin1_runtime) (waitlist empty_db)
  /\ Forall (@as_created latin1_runtime)
       (waitlist (@run latin1_runtime empty_db
                    [by_guest env_evening (POST_add_waitlist alice_form);
                     by_guest env_later (POST_add_waitlist huge_form);
                     by_admin env_last (POST_seated 1)])).
Proof.
  assert (Hw : Forall (@as_created latin1_runtime) (waitlist empty_db))
    by constructor.
  split; [exact Hw|].
  exact (@stored_rows_stay_as_created latin1_runtime empty_db _ Hw).
Defined.

(** X11: ids stay unique: no sequence of requests makes two rows share an
    id (the insert takes an id above all ids in the table, the updates
    never write the id). *)
Theorem ids_stay_unique `{Runtime} db trace :
  NoDup (map Entry.id (waitlist db)) ->
  NoDup (map Entry.id (waitlist (run db trace))).
Proof.
  apply (run_invariant (fun w => NoDup (map Entry.id w))).
  intros env req c Hw.
  destruct (view_effect env req c)
    as [(name & phone & seats & notes & -> & _)|(f & -> & Hf)].
  - rewrite map_app. simpl. apply NoDup_app. split; [done|].
    split; [|apply NoDup_singleton].
    intros j (r & -> & Hr)%list_elem_of_fmap Hj%list_elem_of_singleton.
    apply next_rowid_above in Hr. lia.
  - rewrite map_map.
    erewrite map_ext; [exact Hw|].
    intros r. simpl. destruct (Hf r) as [->|Hs]; [done|].
    by apply row_step_id.
Qed.

Lemma ids_stay_unique_witness :
  NoDup (map Entry.id (waitlist shuffled_db))
  /\ NoDup (map Entry.id
              (waitlist (@run latin1_runtime shuffled_db
                           [by_guest env_last (POST_add_waitlist alice_form);
                            by_admin env_last (POST_delete 2)]))).
Proof.
  assert (Hw : NoDup (map Entry.id (waitlist shuffled_db))).
  { apply (bool_decide_unpack _). vm_compute. exact I. }
  split; [exact Hw|].
  exact (@ids_stay_unique latin1_runtime shuffled_db _ Hw).
Defined.

(** X12: in a database that starts empty the ids are 1, 2, 3, ... in the
    order of insertion, whatever requests are made: more generally, a
    table numbered so stays numbered so. *)
Theorem ids_count_up_from_one `{Runtime} db trace :
  numbered (waitlist db) ->
  numbered (waitlist (run db trace)).
Proof.
  apply (run_invariant numbered).
  intros env req c Hw.
  destruct (view_effect env req c)
    as [(name & phone & seats & notes & -> & _)|(f & -> & Hf)].
  - unfold numbered. rewrite map_app, length_app. simpl.
    rewrite next_rowid_numbered by done.
    rewrite Nat.add_1_r, seq_S, fmap_app. simpl. by rewrite <- Hw.
  - unfold numbered in *. rewrite length_map, <- Hw, map_map.
    apply map_ext. intros r. simpl. destruct (Hf r) as [->|Hs]; [done|].
    by apply row_step_id.
Qed.

Lemma ids_count_up_from_one_witness :
  numbered (waitlist empty_db)
  /\ numbered
       (waitlist (@run latin1_runtime empty_db
                    [by_guest env_evening (POST_add_waitlist alice_form);
                     by_guest env_later (POST_add_waitlist alice_form);
                     by_admin env_last (POST_delete 1);
                     by_guest env_last (POST_add_waitlist alice_form)])).
Proof.
  assert (Hw : numbered (waitlist empty_db)) by reflexivity.
  split; [exact Hw|].
  exact (@ids_count_up_from_one latin1_runtime empty_db _ Hw).
Defined.

Example three_parties_ids :
  map Entry.id
    (waitlist (@run latin1_runtime empty_db
                 [by_guest env_evening (POST_add_waitlist alice_form);
                  by_guest env_later (POST_add_waitlist alice_form);
                  by_admin env_last (POST_delete 1);
                  by_guest env_last (POST_add_waitlist alice_form)]))
  = [1; 2; 3].
Proof. vm_compute. reflexivity. Qed.

(** ** The admin list and the display switch *)

(** X13: the admin page lists every row that is not deleted, whatever its
    status and without the limit of the public views: its rows are a
    permutation of the table's rows with deleted_at NULL, in ascending
    order of [datetime(requesttime)]. *)
Theorem admin_list_shows_all_live_rows `{Runtime} env cookie db :
  is_admin cookie = true ->
  exists rows mode,
    (handle env GET_waitlist cookie db).1.1
    = Render "waitlist_admin.html" rows mode true
    /\ rows ≡ₚ filter (fun r => is_null (Entry.deleted_at r)) (waitlist db)
    /\ StronglySorted by_requesttime rows.
Proof.
  intros Hadm. rewrite handle_response. simpl.
  rewrite waitlist_admin_spec by done. simpl.
  do 2 eexists. split; [done|].
  split; [apply merge_sort_Permutation|apply select_all_sorted].
Qed.

Lemma admin_list_shows_all_live_rows_witness :
  is_admin admin_cookie = true
  /\ exists rows mode,
       (@handle latin1_runtime env_last GET_waitlist admin_cookie
          shuffled_db).1.1
       = Render "waitlist_admin.html" rows mode true
       /\ rows ≡ₚ filter (fun r => is_null (Entry.deleted_at r))
                    (waitlist shuffled_db)
       /\ StronglySorted (@by_requesttime latin1_runtime) rows.
Proof.
  split; [reflexivity|].
  exact (@admin_list_shows_all_live_rows latin1_runtime env_last admin_cookie
           shuffled_db eq_refl).
Defined.

Section Display.
Context `{Runtime}.

Lemma home_after_set_setting env env' value c cookie' :
  response_to (store (set_setting env "display_mode" value c))
    (home_event env' cookie')
  = Render "home.html"
      (if String.eqb value "waitlist"
       then select_active (waitlist (store c)) else [])
      value (is_admin cookie').
Proof.
  rewrite response_to_view. unfold home_event.
  cbn [ev_env ev_request ev_cookie view]. rewrite home_spec.
  cbn [fst session store].
  rewrite get_setting_value.
  rewrite (reopened_store_keeps env' _ "display_mode" value cookie'
             (set_setting_lookup env "display_mode" value c))
    by discriminate.
  by rewrite set_setting_waitlist.
Qed.

Lemma display_start_store env c :
  is_admin (session c) = true ->
  store (display_start env c).2
  = store (set_setting env "display_mode" "waitlist" c).
Proof. intros Hadm. unfold display_start, admin_required. by rewrite Hadm. Qed.

Lemma display_stop_store env c :
  is_admin (session c) = true ->
  store (display_stop env c).2
  = store (set_setting env "display_mode" "open" c).
Proof. intros Hadm. unfold display_stop, admin_required. by rewrite Hadm. Qed.
End Display.

(** X14: the display switch drives the public home page across requests:
    after an admin's start request every home page shows the active list,
    after an admin's stop request every home page shows no rows, whoever
    asks. *)
Theorem display_switch_controls_home `{Runtime} db env env' cookie cookie' :
  is_admin cookie = true ->
  response_to (db_after db (display_event env cookie true))
    (home_event env' cookie')
  = Render "home.html" (select_active (waitlist db)) "waitlist"
      (is_admin cookie')
  /\ response_to (db_after db (display_event env cookie false))
       (home_event env' cookie')
     = Render "home.html" [] "open" (is_admin cookie').
Proof.
  intros Hadm. rewrite !db_after_view. unfold display_event.
  cbn [ev_env ev_request ev_cookie view].
  rewrite display_start_store, display_stop_store by done.
  split; by rewrite home_after_set_setting.
Qed.

Lemma display_switch_controls_home_witness :
  is_admin admin_cookie = true
  /\ @response_to latin1_runtime
       (@db_after latin1_runtime db_alice
          (display_event env_later admin_cookie true))
       (home_event env_last anonymous)
     = Render "home.html"
         (@select_active latin1_runtime (waitlist db_alice)) "waitlist"
         (is_admin anonymous).
Proof.
  split; [reflexivity|].
  exact (proj1 (@display_switch_controls_home latin1_runtime db_alice
                  env_later env_last admin_cookie anonymous eq_refl)).
Defined.

(** A database that was just created shows the open sign. *)
Example new_database_shows_open_sign :
  (@handle latin1_runtime env_evening GET_home anonymous empty_db).1.1
  = Render "home.html" [] "open" false.
Proof. vm_compute. reflexivity. Qed.

(** ** Settings once more *)

(** X15: settings are last-writer-wins per key and independent across
    keys: writing a key twice leaves the store as if only the second
    value had been written, and writes to two different keys give the
    same store in either order. *)
Theorem set_setting_last_write_wins env env' key value value' c :
  store (set_setting env' key value' (set_setting env key value c))
  = store (set_setting env key value' c)
  /\ forall key' : string,
       key' <> key ->
       store (set_setting env' key' value' (set_setting env key value c))
       = store (set_setting env' key value (set_setting env key' value' c)).
Proof.
  split.
  - unfold set_setting at 1.
    rewrite get_db_opened by apply set_setting_open.
    unfold set_setting. simpl. unfold with_settings. simpl.
    by rewrite insert_insert_eq.
  - intros key' Hne. unfold set_setting at 1 3.
    rewrite !get_db_opened by apply set_setting_open.
    unfold set_setting. simpl. unfold with_settings. simpl.
    by rewrite insert_insert_ne.
Qed.

Lemma set_setting_last_write_wins_witness :
  "banner"%string <> "display_mode"%string
  /\ store (set_setting env_later "banner" "hello"
              (set_setting env_evening "display_mode" "waitlist"
                 (guest_ctx empty_db)))
     = store (set_setting env_later "display_mode" "waitlist"
                (set_setting env_evening "banner" "hello"
                   (guest_ctx empty_db))).
Proof.
  split; [discriminate|].
  exact (proj2 (set_setting_last_write_wins env_evening env_later
                  "display_mode" "waitlist" "hello" (guest_ctx empty_db))
           "banner"%string ltac:(discriminate)).
Defined.

(** ** The live panel's timer *)

Lemma api_item_timer `{Runtime} r it :
  api_item r = Some it -> timer_start_utc it = timer_of r +:+ "Z".
Proof.
  unfold api_item. destruct (utc_str_to_et _); [|done].
  intros [= <-]. simpl. f_equal. unfold start_ts, timer_of.
  destruct (Entry.status r), (Entry.assigned_at r) as [[|ch t]|]; simpl;
    try done; by destruct (Entry.requesttime r).
Qed.

(** X16: in the panel's JSON the timer of an ASSIGNING row with a
    non-empty assigned_at starts at the assignment time, the timer of
    every other row at its request time; the value always ends in "Z". *)
Theorem panel_timer_start `{Runtime} env cookie db out :
  (handle env GET_api_waitlist cookie db).1.1 = Json out ->
  Forall2
    (fun r it =>
       item_of_row r it
       /\ (forall t, Entry.status r = ASSIGNING ->
                     Entry.assigned_at r = Some t -> t <> EmptyString ->
                     timer_start_utc it = t +:+ "Z")
       /\ (Entry.status r <> ASSIGNING \/ Entry.assigned_at r = None
           \/ Entry.assigned_at r = Some EmptyString ->
           timer_start_utc it = Entry.requesttime r +:+ "Z"))
    (select_active (waitlist db)) out.
Proof.
  rewrite handle_response. simpl. rewrite api_waitlist_response. simpl.
  destruct (mapM api_item (select_active (waitlist db))) as [out'|] eqn:E;
    [|done].
  intros [= <-]. apply mapM_Some in E.
  eapply Forall2_impl; [exact E|]. intros r it Hit. simpl in Hit.
  pose proof (api_item_timer r it Hit) as Ht.
  split; [by apply api_item_shows|]. rewrite Ht. unfold timer_of. split.
  - intros t -> -> Hne. by destruct t.
  - intros [Hst|[-> | ->]]; [|by destruct (Entry.status r)..].
    by destruct (Entry.status r), (Entry.assigned_at r) as [[|]|].
Qed.

Lemma panel_timer_start_witness :
  exists out,
    (@handle latin1_runtime env_last GET_api_waitlist anonymous
       shuffled_db).1.1 = Json out
    /\ map timer_start_utc out
       = ["2024-05-01 18:40:00Z"%string; "2024-05-01 18:30:00Z"%string]
    /\ Forall2
         (fun r it =>
            item_of_row r it
            /\ (forall t, Entry.status r = ASSIGNING ->
                          Entry.assigned_at r = Some t -> t <> EmptyString ->
                          timer_start_utc it = t +:+ "Z")
            /\ (Entry.status r <> ASSIGNING \/ Entry.assigned_at r = None
                \/ Entry.assigned_at r = Some EmptyString ->
                timer_start_utc it = Entry.requesttime r +:+ "Z"))
         (@select_active latin1_runtime (waitlist shuffled_db)) out.
Proof.
  eexists. split; [vm_compute; reflexivity|].
  split; [reflexivity|].
  apply (@panel_timer_start latin1_runtime env_last anonymous shuffled_db).
  vm_compute. reflexivity.
Defined.

(** ** The health endpoint *)

Lemma status_api_spec env media_dir c :
  status_api env media_dir c
  = ({| status_ok := true;
        waitlist_count :=
          length (filter (fun r => is_null (Entry.deleted_at r))
                    (waitlist (store c)));
        media_count := length (fetch_media_files media_dir);
        status_display_mode := (get_setting env "display_mode" "open" c).1;
        status_is_admin := is_admin (session c) |},
     get_db env c).
Proof.
  unfold status_api.
  pose proof (get_setting_ctx env "display_mode" "open" (get_db env c)) as Hc.
  pose proof (get_setting_value env "display_mode" "open" (get_db env c)) as Hv.
  destruct (get_setting env "display_mode" "open" (get_db env c))
    as [mode c'] eqn:E.
  simpl in Hc, Hv. subst c'. rewrite get_db_idem in *.
  rewrite get_db_session, get_db_waitlist, get_setting_value, <- Hv. done.
Qed.

Lemma live_count_update where_ set_ (w : list Entry.t) :
  (forall r, Entry.deleted_at (set_ r) = Entry.deleted_at r) ->
  length (filter (fun r => is_null (Entry.deleted_at r))
            (sql_update where_ set_ w))
  = length (filter (fun r => is_null (Entry.deleted_at r)) w).
Proof.
  intros Hset. unfold sql_update.
  induction w as [|r w IH]; [done|]. simpl. rewrite !filter_cons.
  assert (Heq : Entry.deleted_at (if where_ r then set_ r else r)
                = Entry.deleted_at r) by (destruct (where_ r); auto).
  rewrite Heq. destruct (decide _); simpl; by rewrite IH.
Qed.

Lemma live_count_delete now (w : list Entry.t) n r :
  NoDup (map Entry.id w) ->
  w !! n = Some r ->
  Entry.deleted_at r = None ->
  S (length (filter (fun r => is_null (Entry.deleted_at r))
               (sql_update (live_with_id (Entry.id r))
                  (set_deleted_at (Some now)) w)))
  = length (filter (fun r => is_null (Entry.deleted_at r)) w).
Proof.
  intros Hnodup Hn Hlive. revert n Hn.
  induction w as [|x w IH]; intros n Hn; [done|].
  simpl in Hnodup. apply NoDup_cons in Hnodup as [Hx Hnodup].
  unfold sql_update. simpl. rewrite !filter_cons.
  destruct n as [|n]; simpl in Hn.
  - injection Hn as ->. rewrite live_with_id_intro by done. simpl.
    rewrite Hlive. simpl.
    replace (map _ w) with w; [done|].
    rewrite <- (map_id w) at 1. apply map_ext_in. intros y Hy.
    rewrite live_with_id_other; [done|]. intros Heq. apply Hx.
    rewrite <- Heq. apply list_elem_of_fmap. exists y. split; [done|].
    by apply list_elem_of_In.
  - assert (Hne : Entry.id x <> Entry.id r).
    { intros Heq. apply Hx. rewrite Heq. apply list_elem_of_fmap.
      exists r. split; [done|]. eapply list_elem_of_lookup_2, Hn. }
    rewrite live_with_id_other by done.
    specialize (IH Hnodup n Hn). unfold sql_update in IH.
    destruct (decide _); simpl; by rewrite <- IH.
Qed.

(** X17: the health endpoint, open to everyone, counts exactly the rows
    the admin page lists (all rows that are not deleted, whatever their
    status), reports the caller's own admin flag and the display mode the
    home page is rendered with, and writes nothing but the seeding of the
    opened store. *)
Theorem status_counts_live_rows `{Runtime} env media_dir cookie db :
  waitlist_count (status_of env media_dir cookie db)
  = length (select_all (waitlist db))
  /\ status_is_admin (status_of env media_dir cookie db) = is_admin cookie
  /\ media_count (status_of env media_dir cookie db)
     = length (fetch_media_files media_dir)
  /\ (exists rows,
        (handle env GET_home cookie db).1.1
        = Render "home.html" rows
            (status_display_mode (status_of env media_dir cookie db))
            (is_admin cookie))
  /\ (status_api env media_dir
        {| store := db; g_db := false; session := cookie |}).2
     = get_db env {| store := db; g_db := false; session := cookie |}.
Proof.
  unfold status_of. rewrite status_api_spec. cbn [fst snd waitlist_count
    status_is_admin media_count status_display_mode store session].
  split; [unfold select_all; by rewrite merge_sort_Permutation|].
  split; [done|]. split; [done|]. split; [|done].
  rewrite handle_response. cbn [view]. rewrite home_spec.
  cbn [fst session]. eauto.
Qed.

(** X18: assign and seat requests never change the number the health
    endpoint reports; an admin's delete request on an entry that is not
    deleted lowers it by exactly one (ids being unique). *)
Theorem delete_lowers_status_count `{Runtime} db env env' media_dir cookie
    cookie' n r :
  is_admin cookie = true ->
  NoDup (map Entry.id (waitlist db)) ->
  waitlist db !! n = Some r ->
  Entry.deleted_at r = None ->
  sqlite_integer (Entry.id r) = true ->
  S (waitlist_count
       (status_of env' media_dir cookie'
          (db_after db (delete_event env cookie (Entry.id r)))))
  = waitlist_count (status_of env' media_dir cookie' db)
  /\ waitlist_count
       (status_of env' media_dir cookie'
          (db_after db (assign_event env cookie (Entry.id r))))
     = waitlist_count (status_of env' media_dir cookie' db)
  /\ waitlist_count
       (status_of env' media_dir cookie'
          (db_after db (seated_event env cookie (Entry.id r))))
     = waitlist_count (status_of env' media_dir cookie' db).
Proof.
  intros Hadm Hnodup Hn Hlive Hfit. unfold status_of.
  rewrite !status_api_spec. cbn [fst waitlist_count store].
  rewrite db_after_delete, db_after_assign, db_after_seated by done.
  split; [by eapply live_count_delete|].
  split; by apply live_count_update.
Qed.

Lemma delete_lowers_status_count_witness :
  is_admin admin_cookie = true
  /\ NoDup (map Entry.id (waitlist shuffled_db))
  /\ waitlist shuffled_db !! 1%nat
     = Some (Entry.mk 2 "Mina" "5550002" 2 None ASSIGNING
               "2024-05-01 18:10:00" (Some "2024-05-01 18:10:00")
               (Some "2024-05-01 18:40:00") None None)
  /\ S (waitlist_count
          (status_of env_last None anonymous
             (@db_after latin1_runtime shuffled_db
                (delete_event env_last admin_cookie 2))))
     = waitlist_count (status_of env_last None anonymous shuffled_db).
Proof.
  assert (Hw : NoDup (map Entry.id (waitlist shuffled_db))).
  { apply (bool_decide_unpack _). vm_compute. exact I. }
  split; [reflexivity|]. split; [exact Hw|]. split; [reflexivity|].
  exact (proj1 (@delete_lowers_status_count latin1_runtime shuffled_db
                  env_last env_last None admin_cookie anonymous 1%nat _
                  eq_refl Hw eq_refl eq_refl eq_refl)).
Defined.

(** ** Media files *)

Global Instance string_le_total : Total string_le.
Proof. intros s t. apply String.leb_total. Qed.

Global Instance string_le_trans : Transitive string_le.
Proof. intros s t u. apply string_leb_trans. Qed.

Lemma basename_has_no_slash (p : string) :
  has_char "/"%char (basename p) = false.
Proof.
  induction p as [|ch rest IH]; simpl; [done|].
  destruct (has_char "/"%char rest) eqn:E; [done|].
  destruct (Ascii.eqb ch "/"%char) eqn:Ech; [done|]. simpl.
  by rewrite Ech, E.
Qed.

Lemma basename_of_name (p : string) :
  has_char "/"%char p = false -> basename p = p.
Proof.
  destruct p as [|ch rest]; simpl; [done|].
  intros [Hch Hrest]%orb_false_elim. by rewrite Hrest, Hch.
Qed.

Lemma in_allowed_ext_true (ext : string) :
  in_allowed_ext ext = true <-> ext ∈ ALLOWED_EXT.
Proof.
  unfold in_allowed_ext. rewrite existsb_exists, list_elem_of_In. split.
  - intros (e & He & ->%String.eqb_eq). done.
  - intros He. exists ext. split; [done|]. apply String.eqb_refl.
Qed.

Lemma StronglySorted_filter_keeps {A} (R : relation A) (P : A -> Prop)
    `{forall x, Decision (P x)} (l : list A) :
  StronglySorted R l -> StronglySorted R (filter P l).
Proof.
  induction 1 as [|x l Hs IH Hx]; [constructor|].
  rewrite filter_cons. destruct (decide (P x)); [|done].
  constructor; [done|]. apply Forall_forall.
  intros y [_ Hy]%list_elem_of_filter. rewrite Forall_forall in Hx. auto.
Qed.

Lemma fetch_media_files_member (listing : list string) (fn : string) :
  fn ∈ fetch_media_files (Some listing) ->
  in_allowed_ext (lower (splitext_ext fn)) = true.
Proof.
  unfold fetch_media_files. intros [Hshown _]%list_elem_of_filter.
  unfold shown_in_slideshow in Hshown.
  apply Is_true_true in Hshown. by apply andb_prop in Hshown as [_ ?].
Qed.

(** X19: a file name accepted by [_safe_media_path] denotes a file directly
    inside the media directory: the result is the last path component of
    the input, holds no ["/"], is neither empty nor ["."] nor [".."], and
    its extension, lower-cased, is one of the allowed ones.  So the delete
    form cannot reach a file outside the media directory. *)
Theorem safe_media_path_stays_in_media_dir (filename name : string) :
  _safe_media_path filename = Some name ->
  name = basename filename
  /\ has_char "/"%char name = false
  /\ name <> EmptyString /\ name <> "."%string /\ name <> ".."%string
  /\ lower (splitext_ext name) ∈ ALLOWED_EXT.
Proof.
  unfold _safe_media_path.
  destruct (in_allowed_ext _) eqn:E; [|done]. intros [= <-].
  split; [done|]. split; [apply basename_has_no_slash|].
  repeat split;
    try (intros Heq; rewrite Heq in E; vm_compute in E; discriminate).
  by apply in_allowed_ext_true.
Qed.

Lemma safe_media_path_stays_in_media_dir_witness :
  _safe_media_path "../static/../media/Clip.MP4" = Some "Clip.MP4"%string
  /\ "Clip.MP4"%string = basename "../static/../media/Clip.MP4"
  /\ has_char "/"%char "Clip.MP4" = false
  /\ "Clip.MP4"%string <> EmptyString /\ "Clip.MP4"%string <> "."%string
  /\ "Clip.MP4"%string <> ".."%string
  /\ lower (splitext_ext "Clip.MP4") ∈ ALLOWED_EXT.
Proof.
  split; [reflexivity|].
  exact (safe_media_path_stays_in_media_dir "../static/../media/Clip.MP4"
           "Clip.MP4" eq_refl).
Defined.

(** What [_safe_media_path] turns down. *)
Example traversal_is_rejected :
  map _safe_media_path
    ["../../etc/passwd"%string; "../app.db"%string; ".."%string;
     "media/.png"%string; EmptyString]
  = [None; None; None; None; None].
Proof. vm_compute. reflexivity. Qed.

(** X20: the slideshow list is empty when the media directory does not
    exist; otherwise it holds exactly the directory entries that do not
    start with a dot and whose lower-cased extension is allowed, in
    ascending order of their names, each as often as the listing has
    it. *)
Theorem fetch_media_files_spec (listing : list string) :
  fetch_media_files None = []
  /\ StronglySorted string_le (fetch_media_files (Some listing))
  /\ (forall fn,
        fn ∈ fetch_media_files (Some listing) <->
        fn ∈ listing /\ hidden fn = false
        /\ lower (splitext_ext fn) ∈ ALLOWED_EXT)
  /\ fetch_media_files (Some listing)
     ≡ₚ filter (fun fn => shown_in_slideshow fn) listing.
Proof.
  split; [done|]. unfold fetch_media_files. split; [|split].
  - apply StronglySorted_filter_keeps, StronglySorted_merge_sort; apply _.
  - intros fn. rewrite list_elem_of_filter, merge_sort_Permutation.
    unfold shown_in_slideshow.
    rewrite Is_true_true, andb_true_iff, negb_true_iff, in_allowed_ext_true.
    tauto.
  - by rewrite merge_sort_Permutation.
Qed.

Example slideshow_of_sample_listing :
  fetch_media_files (Some media_listing)
  = ["banner.jpeg"%string; "clip.mp4"%string; "menu.PNG"%string].
Proof. vm_compute. reflexivity. Qed.

(** X21: every file the slideshow lists can be named in the delete form:
    if its name holds no ["/"] (no directory entry does) and is not
    changed by [strip], [media_delete] looks for exactly that file. *)
Theorem listed_media_can_be_deleted `{Runtime} (listing : list string)
    (fn : string) :
  fn ∈ fetch_media_files (Some listing) ->
  has_char "/"%char fn = false ->
  strip fn = fn ->
  media_delete_target (Some fn) = Some fn.
Proof.
  intros Hin Hname Hstrip. unfold media_delete_target. simpl.
  rewrite Hstrip. unfold _safe_media_path.
  rewrite basename_of_name by done.
  apply fetch_media_files_member in Hin. by rewrite Hin.
Qed.

Lemma listed_media_can_be_deleted_witness :
  "clip.mp4"%string ∈ fetch_media_files (Some media_listing)
  /\ has_char "/"%char "clip.mp4" = false
  /\ @strip latin1_runtime "clip.mp4" = "clip.mp4"%string
  /\ @media_delete_target latin1_runtime (Some "clip.mp4"%string)
     = Some "clip.mp4"%string.
Proof.
  assert (Hin : "clip.mp4"%string ∈ fetch_media_files (Some media_listing)).
  { apply (bool_decide_unpack _). vm_compute. exact I. }
  split; [exact Hin|]. split; [reflexivity|]. split; [reflexivity|].
  exact (@listed_media_can_be_deleted latin1_runtime media_listing
           "clip.mp4" Hin eq_refl eq_refl).
Defined.

(** A file whose name begins with a space is listed, yet the delete form
    strips the name and looks for another file. *)
Example padded_name_cannot_be_deleted :
  fetch_media_files (Some [" a.png"%string]) = [" a.png"%string]
  /\ @media_delete_target latin1_runtime (Some " a.png"%string)
     = Some "a.png"%string.
Proof. vm_compute. split; reflexivity. Qed.
